(** * SEO content gap analysis: the normalisation and gap-analysis engine

    A shallow embedding of [seo-content-gap-analysis.py]: the extraction of
    keyword records from the raw items of the ranking-data provider
    ([extract_keyword_info]) and the gap analysis over a primary domain and
    its competitors ([content_gap_analysis]).

    The transport ([get_keywords], an authenticated POST) is a parameter: a
    function from a domain to the list of raw items it returns, the empty
    list on any failure.  Printing ([print], [tabulate]) has no effect on the
    values computed and is left out.

    Two things the program takes from its runtime are parameters as well
    ([Runtime]): the Unicode tables behind [str.lower] and [str.strip] on
    text that is not ASCII, and the type pandas infers for a keyword column
    that holds other values than strings, on which the [.str] accessor
    depends.  On ASCII text and on columns of strings, of numbers or of
    booleans everything is computed here. *)

From Stdlib Require Import ZArith QArith Qcanon Ascii String.
From stdpp Require Import base decidable option list countable gmap strings.

Local Open Scope string_scope.
Local Open Scope list_scope.

(** ** Python values *)

(** The values a decoded JSON response holds, plus [PNaN], the float pandas
    puts in a cell that has no value.  A float is kept as the rational its
    literal denotes: the program never computes with one. *)
#[local] Unset Elimination Schemes.
Inductive pyval : Type :=
  | PNone
  | PNaN
  | PBool (b : bool)
  | PInt (z : Z)
  | PFloat (q : Qc)
  | PStr (s : string)
  | PList (l : list pyval)
  | PDict (d : list (string * pyval)).
#[local] Set Elimination Schemes.

(** A Python [dict] with string keys, in insertion order. *)
Abbreviation dict V := (list (string * V)) (only parsing).

(** A raw item of the response: a JSON object. *)
Abbreviation item := (dict pyval) (only parsing).

Global Instance pyval_inhabited : Inhabited pyval := populate PNone.

Section pyval_induction.
Variable P : pyval → Prop.
Hypothesis HNone : P PNone.
Hypothesis HNaN : P PNaN.
Hypothesis HBool : ∀ b, P (PBool b).
Hypothesis HInt : ∀ z, P (PInt z).
Hypothesis HFloat : ∀ q, P (PFloat q).
Hypothesis HStr : ∀ s, P (PStr s).
Hypothesis HList : ∀ l, Forall P l → P (PList l).
Hypothesis HDict : ∀ d, Forall (λ kv, P kv.2) d → P (PDict d).

Fixpoint pyval_nested_ind (v : pyval) : P v :=
    match v with
    | PNone => HNone
    | PNaN => HNaN
    | PBool b => HBool b
    | PInt z => HInt z
    | PFloat q => HFloat q
    | PStr s => HStr s
    | PList l =>
        HList l ((fix go (l : list pyval) : Forall P l :=
                    match l with
                    | [] => Forall_nil_2 P
                    | x :: l' => Forall_cons_2 P x l' (pyval_nested_ind x) (go l')
                    end) l)
    | PDict d =>
        HDict d ((fix go (d : list (string * pyval)) : Forall (λ kv, P kv.2) d :=
                    match d with
                    | [] => Forall_nil_2 _
                    | kv :: d' =>
                        Forall_cons_2 (λ kv, P kv.2) kv d'
                          (pyval_nested_ind kv.2) (go d')
                    end) d)
    end.
End pyval_induction.

(** Values are encoded as trees over their atoms, which makes them a
    countable type with decidable equality: they can be compared ([isin]) and
    collected in a finite set ([set(...)]). *)
Definition atom : Type := bool + Z + Qc + string.

Fixpoint pyval_encode (v : pyval) : gen_tree atom :=
  match v with
  | PNone => GenNode 0 []
  | PNaN => GenNode 1 []
  | PBool b => GenLeaf (inl (inl (inl b)))
  | PInt z => GenLeaf (inl (inl (inr z)))
  | PFloat q => GenLeaf (inl (inr q))
  | PStr s => GenLeaf (inr s)
  | PList l => GenNode 2 (pyval_encode <$> l)
  | PDict d =>
      GenNode 3 ((λ kv, GenNode 4 [GenLeaf (inr kv.1); pyval_encode kv.2]) <$> d)
  end.

Fixpoint pyval_decode (t : gen_tree atom) : pyval :=
  match t with
  | GenLeaf (inl (inl (inl b))) => PBool b
  | GenLeaf (inl (inl (inr z))) => PInt z
  | GenLeaf (inl (inr q)) => PFloat q
  | GenLeaf (inr s) => PStr s
  | GenNode 0 _ => PNone
  | GenNode 1 _ => PNaN
  | GenNode 2 ts => PList (pyval_decode <$> ts)
  | GenNode _ ts =>
      PDict ((λ t, match t with
                   | GenNode _ [GenLeaf (inr k); t'] => (k, pyval_decode t')
                   | _ => ("", PNone)
                   end) <$> ts)
  end.

Lemma pyval_decode_encode (v : pyval) : pyval_decode (pyval_encode v) = v.
Proof.
  induction v as [| | | | | |l IH|d IH] using pyval_nested_ind; simpl; try done.
  - f_equal. induction IH as [|x l' Hx _ IHl]; csimpl; [done|]. by rewrite Hx, IHl.
  - f_equal. induction IH as [|[k x] d' Hx _ IHd]; csimpl in *; [done|].
    by rewrite Hx, IHd.
Qed.

Global Instance pyval_eq_dec : EqDecision pyval.
Proof.
  refine (λ x y, cast_if (decide (pyval_encode x = pyval_encode y))).
  - abstract (rewrite <-(pyval_decode_encode x), <-(pyval_decode_encode y); congruence).
  - abstract congruence.
Defined.

Global Instance pyval_countable : Countable pyval :=
  inj_countable' pyval_encode pyval_decode pyval_decode_encode.

(** ** Exceptions *)

(** The exceptions the modelled code can raise: a missing column or
    dictionary key, a method call on a value that has no such method
    ([None.get]) or the [.str] accessor on a column that is not text, and
    [pd.concat] of no frame at all. *)
Inductive exn : Type :=
  | KeyError (k : string)
  | AttributeError
  | ValueError.

Inductive result (A : Type) : Type :=
  | Ok (a : A)
  | Err (e : exn).
Global Arguments Ok {A} a.
Global Arguments Err {A} e.

Global Instance result_ret : MRet result := λ A, Ok.
Global Instance result_bind : MBind result := λ A B f m,
  match m with Ok a => f a | Err e => Err e end.
Global Instance result_fmap : FMap result := λ A B f m,
  match m with Ok a => Ok (f a) | Err e => Err e end.

(** A left-to-right loop with a state, stopping at the first exception. *)
Fixpoint foldlM {S A} (f : S → A → result S) (s : S) (l : list A) : result S :=
  match l with
  | [] => Ok s
  | x :: l' => s' ← f s x; foldlM f s' l'
  end.

(** ** Dictionaries *)

(** [d.get(k)] as an option; the first entry of a key is the one a Python
    dict holds (its keys are unique). *)
Fixpoint dict_get {V} (k : string) (d : dict V) : option V :=
  match d with
  | [] => None
  | (k', v) :: d' => if decide (k = k') then Some v else dict_get k d'
  end.

(** [d[k] = v]: the value is replaced where the key is, a new key goes to
    the end. *)
Fixpoint dict_set {V} (k : string) (v : V) (d : dict V) : dict V :=
  match d with
  | [] => [(k, v)]
  | (k', v') :: d' =>
      if decide (k = k') then (k, v) :: d' else (k', v') :: dict_set k v d'
  end.

(** [d[k]], raising [KeyError]. *)
Definition dict_getitem {V} (d : dict V) (k : string) : result V :=
  match dict_get k d with
  | Some v => Ok v
  | None => Err (KeyError k)
  end.

(** [d.values()] *)
Definition dict_values {V} (d : dict V) : list V := d.*2.

(** [x.get(k, dflt)] on an arbitrary value: only a dict has the method. *)
Definition py_get (x : pyval) (k : string) (dflt : pyval) : result pyval :=
  match x with
  | PDict d => Ok (default dflt (dict_get k d))
  | _ => Err AttributeError
  end.

(** Truth value of a Python object, as [if x] and [and] test it. *)
Definition truthy (x : pyval) : bool :=
  match x with
  | PNone => false
  | PNaN => true
  | PBool b => b
  | PInt z => negb (Z.eqb z 0)
  | PFloat q => negb (Z.eqb (Qnum (this q)) 0)
  | PStr s => negb (String.eqb s "")
  | PList l => match l with [] => false | _ => true end
  | PDict d => match d with [] => false | _ => true end
  end.

Definition isinstance_dict (x : pyval) : bool :=
  match x with PDict _ => true | _ => false end.

(** ** The runtime

    What the program's result depends on and the program does not define:

    - [unicode_lower] and [unicode_strip] are [str.lower] and [str.strip] on
      a string that holds a character outside ASCII.  There the result
      depends on the Unicode character database (["CAFÉ"] gives ["café"],
      U+00A0 is white space);
    - [infers_text] is the verdict of pandas' type inference on a keyword
      column that holds neither strings only, nor numbers only, nor booleans
      only: whether [col.str.lower().str.strip()] goes through on it.

    Every property below that has a runtime in its statement holds for all
    of them. *)
Class Runtime : Type := {
  unicode_lower : string → string;
  unicode_strip : string → string;
  infers_text : list pyval → bool
}.

(** ** Strings: [str.lower] and [str.strip]

    A string is the sequence of the bytes of its UTF-8 encoding: an ASCII
    character is one byte below 128 and every other character is made of
    bytes from 128 on.  On a string of ASCII characters [str.lower] and
    [str.strip] are [lower_ascii] and [strip_ascii]; on any other string
    they are the runtime's. *)
Definition ascii_lower (c : ascii) : ascii :=
  let n := nat_of_ascii c in
  if (65 <=? n)%nat && (n <=? 90)%nat then ascii_of_nat (n + 32) else c.

Fixpoint lower_ascii (s : string) : string :=
  match s with
  | EmptyString => EmptyString
  | String c s' => String (ascii_lower c) (lower_ascii s')
  end.

(** [str.isspace] on one ASCII character: tab, line feed, vertical tab, form
    feed, carriage return, the four separators 28 to 31 and the space. *)
Definition isspace (c : ascii) : bool :=
  let n := nat_of_ascii c in
  ((9 <=? n)%nat && (n <=? 13)%nat) || ((28 <=? n)%nat && (n <=? 32)%nat).

Fixpoint lstrip_ascii (s : string) : string :=
  match s with
  | EmptyString => EmptyString
  | String c s' => if isspace c then lstrip_ascii s' else s
  end.

Fixpoint rstrip_ascii (s : string) : string :=
  match s with
  | EmptyString => EmptyString
  | String c s' =>
      match rstrip_ascii s' with
      | EmptyString => if isspace c then EmptyString else String c EmptyString
      | r => String c r
      end
  end.

Definition strip_ascii (s : string) : string := rstrip_ascii (lstrip_ascii s).

(** Every character of the string is an ASCII character. *)
Fixpoint is_ascii (s : string) : bool :=
  match s with
  | EmptyString => true
  | String c s' => (nat_of_ascii c <? 128)%nat && is_ascii s'
  end.

(** [s.lower()] *)
Definition lower `{Runtime} (s : string) : string :=
  if is_ascii s then lower_ascii s else unicode_lower s.

(** [s.strip()] *)
Definition strip `{Runtime} (s : string) : string :=
  if is_ascii s then strip_ascii s else unicode_strip s.

(** ** Raw frames: [pd.DataFrame(items)]

    One row per item and one column per key that occurs in some item; a row
    whose item lacks the key of a column holds NaN there. *)

(** [df.empty]: no row, or no column. *)
Definition df_empty (df : list item) : bool :=
  forallb (λ it, match it with [] => true | _ => false end) df.

(** [df[c]] on a raw frame: the column, or [KeyError] when no item has the
    key. *)
Definition df_getitem (df : list item) (c : string) : result (list pyval) :=
  if existsb (λ it, bool_decide (is_Some (dict_get c it))) df
  then Ok ((λ it, default PNaN (dict_get c it)) <$> df)
  else Err (KeyError c).

(** [series.apply(f)] *)
Definition apply (f : pyval → result pyval) (col : list pyval) : result (list pyval) :=
  mapM f col.

(** ** The lambdas of [extract_keyword_info] *)

(** [lambda x: x.get('keyword', "N/A") if isinstance(x, dict) else "N/A"] *)
Definition keyword_of (x : pyval) : result pyval :=
  if isinstance_dict x then py_get x "keyword" (PStr "N/A") else Ok (PStr "N/A").

(** [lambda x: x.get('keyword_info', {}).get('search_volume', 0)
               if isinstance(x, dict) else 0] *)
Definition search_volume_of (x : pyval) : result pyval :=
  if isinstance_dict x
  then ki ← py_get x "keyword_info" (PDict []); py_get ki "search_volume" (PInt 0)
  else Ok (PInt 0).

(** [lambda x: x.get('keyword_properties', {}).get('keyword_difficulty', 0)
               if isinstance(x, dict) else 0] *)
Definition keyword_difficulty_of (x : pyval) : result pyval :=
  if isinstance_dict x
  then kp ← py_get x "keyword_properties" (PDict []);
       py_get kp "keyword_difficulty" (PInt 0)
  else Ok (PInt 0).

(** [lambda x: x.get('keyword_info', {}).get('cpc', 0)
               if isinstance(x, dict)
                  and x.get('keyword_info', {}).get('cpc') is not None else 0] *)
Definition cpc_of (x : pyval) : result pyval :=
  c ← (if isinstance_dict x
       then ki ← py_get x "keyword_info" (PDict []);
            v ← py_get ki "cpc" PNone;
            Ok (negb (bool_decide (v = PNone)))
       else Ok false);
  if c : bool
  then ki ← py_get x "keyword_info" (PDict []); py_get ki "cpc" (PInt 0)
  else Ok (PInt 0).

(** [lambda x: x.get('keyword_info', {}).get('last_updated_time', "N/A")
               if isinstance(x, dict) else "N/A"] *)
Definition last_updated_time_of (x : pyval) : result pyval :=
  if isinstance_dict x
  then ki ← py_get x "keyword_info" (PDict []);
       py_get ki "last_updated_time" (PStr "N/A")
  else Ok (PStr "N/A").

(** [lambda x: x.get('avg_backlinks_info', {}).get('rank', 0)
               if isinstance(x, dict) and x.get('avg_backlinks_info') else 0],
    applied to the [keyword_data] column. *)
Definition position_of (x : pyval) : result pyval :=
  c ← (if isinstance_dict x
       then truthy <$> py_get x "avg_backlinks_info" PNone
       else Ok false);
  if c : bool
  then abi ← py_get x "avg_backlinks_info" (PDict []); py_get abi "rank" (PInt 0)
  else Ok (PInt 0).

(** [lambda x: x.get('serp_item', {}).get('etv', 0)
               if isinstance(x, dict) and x.get('serp_item') else 0],
    applied to the [ranked_serp_element] column. *)
Definition traffic_of (x : pyval) : result pyval :=
  c ← (if isinstance_dict x
       then truthy <$> py_get x "serp_item" PNone
       else Ok false);
  if c : bool
  then si ← py_get x "serp_item" (PDict []); py_get si "etv" (PInt 0)
  else Ok (PInt 0).

(** ** Keyword records *)

(** A row of the frame [extract_keyword_info] returns.  The columns
    ["<domain>_Position"] and ["<domain>_Traffic"] are kept as two
    dictionaries keyed by the domain, in the order of [columns_to_keep].  A
    cell holds the value its lambda returned; that pandas may store a column
    of integers as floats of the same value is not modelled. *)
Record record : Type := mk_record {
  keyword : pyval;
  search_volume : pyval;
  Keyword_Difficulty : pyval;
  CPC : pyval;
  last_updated_time : pyval;
  Position : dict pyval;
  Traffic : dict pyval
}.

(** A frame of keyword records: its rows, in order. *)
Abbreviation frame := (list record) (only parsing).

(** Row [i] of [df[columns_to_keep]], read off the computed columns. *)
Definition row_at (kw sv kd cpc lut : list pyval)
    (cols : list (string * list pyval * list pyval)) (i : nat) : record :=
  {| keyword := kw !!! i;
     search_volume := sv !!! i;
     Keyword_Difficulty := kd !!! i;
     CPC := cpc !!! i;
     last_updated_time := lut !!! i;
     Position := (λ c, (c.1.1, c.1.2 !!! i)) <$> cols;
     Traffic := (λ c, (c.1.1, c.2 !!! i)) <$> cols |}.

(** [extract_keyword_info(df, domain_list)], column by column as the source
    computes it.  None of the columns it assigns is named [keyword_data] or
    [ranked_serp_element], so these two are read from the raw frame
    throughout. *)
Definition extract_keyword_info (df : list item) (domain_list : list string)
    : result frame :=
  if df_empty df then Ok [] else
  kw ← df_getitem df "keyword_data" ≫= apply keyword_of;
  sv ← df_getitem df "keyword_data" ≫= apply search_volume_of;
  kd ← df_getitem df "keyword_data" ≫= apply keyword_difficulty_of;
  cpc ← df_getitem df "keyword_data" ≫= apply cpc_of;
  lut ← df_getitem df "keyword_data" ≫= apply last_updated_time_of;
  cols ← mapM (λ domain,
                 pos ← df_getitem df "keyword_data" ≫= apply position_of;
                 tr ← df_getitem df "ranked_serp_element" ≫= apply traffic_of;
                 Ok (domain, pos, tr)) domain_list;
  Ok (row_at kw sv kd cpc lut cols <$> seq 0 (length df)).

(** The same extraction read one item at a time: the record of an item,
    given the cells of its row in the two columns the lambdas read. *)
Definition normalize (domain_list : list string) (it : item) : result record :=
  let x := default PNaN (dict_get "keyword_data" it) in
  let y := default PNaN (dict_get "ranked_serp_element" it) in
  kw ← keyword_of x;
  sv ← search_volume_of x;
  kd ← keyword_difficulty_of x;
  cpc ← cpc_of x;
  lut ← last_updated_time_of x;
  cols ← mapM (λ domain, pos ← position_of x; tr ← traffic_of y;
                         Ok (domain, pos, tr)) domain_list;
  Ok {| keyword := kw; search_volume := sv; Keyword_Difficulty := kd;
        CPC := cpc; last_updated_time := lut;
        Position := (λ c : string * pyval * pyval, (c.1.1, c.1.2)) <$> cols;
        Traffic := (λ c : string * pyval * pyval, (c.1.1, c.2)) <$> cols |}.

(** ** The [.str] accessor *)

(** A method of [series.str] on one cell of a column the accessor accepts:
    the method is applied to a string, [None] stays, any other value becomes
    NaN. *)
Definition str_method (f : string → string) (x : pyval) : pyval :=
  match x with
  | PStr s => PStr (f s)
  | PNone => PNone
  | _ => PNaN
  end.

(** [s.str.lower().str.strip()] on one cell. *)
Definition str_lower_strip `{Runtime} (x : pyval) : pyval :=
  str_method strip (str_method lower x).

Definition is_str (x : pyval) : bool :=
  match x with PStr _ => true | _ => false end.

Definition is_number (x : pyval) : bool :=
  match x with PInt _ | PFloat _ => true | _ => false end.

Definition is_bool (x : pyval) : bool :=
  match x with PBool _ => true | _ => false end.

(** Whether [col.str.lower().str.strip()] goes through on a column built by
    [apply].  The accessor is refused, with [AttributeError], on a column
    pandas does not infer to hold text; it is used twice, on the column and
    on what [.str.lower()] returns, and both refusals are the same
    exception.  A column of strings is accepted, and so is its lowered form;
    a column of numbers only is stored as integers or floats and refused,
    and so is a column of booleans only.  For any other column the verdict
    is the runtime's. *)
Definition str_accessor `{Runtime} (col : list pyval) : bool :=
  if forallb is_str col then true
  else if forallb is_number col || forallb is_bool col then false
  else infers_text col.

(** [df['keyword'] = df['keyword'].str.lower().str.strip()] *)
Definition normalize_keywords `{Runtime} (df : frame) : result frame :=
  if str_accessor (keyword <$> df)
  then Ok ((λ r, {| keyword := str_lower_strip (keyword r);
                    search_volume := search_volume r;
                    Keyword_Difficulty := Keyword_Difficulty r;
                    CPC := CPC r;
                    last_updated_time := last_updated_time r;
                    Position := Position r;
                    Traffic := Traffic r |}) <$> df)
  else Err AttributeError.

(** [set(df['keyword'])] *)
Definition keyword_set (df : frame) : gset pyval := list_to_set (keyword <$> df).

(** [df[df['keyword'].isin(other['keyword'])]] *)
Definition isin_filter (df other : frame) : frame :=
  filter (λ r, keyword r ∈ keyword <$> other) df.

(** [pd.concat(frames, ignore_index=True)]: the rows of the frames one after
    the other; [ValueError] when there is no frame.  Columns are aligned by
    name: a row reads NaN in a column only another frame has, which the
    dictionaries of a record show as an absent key. *)
Definition concat (frames : list frame) : result frame :=
  match frames with
  | [] => Err ValueError
  | _ => Ok (mjoin frames)
  end.

(** ** The gap analysis *)

(** The result dictionary of [content_gap_analysis].  The matrix is the
    square frame indexed by domain names on both axes: cell [(a, b)] is row
    [a], column [b].  A name given twice labels several cells, which [.at]
    writes together, so a cell is known by its two labels. *)
Record analysis : Type := mk_analysis {
  all_keywords_df : frame;
  common_keywords_df : frame;
  common_keywords_matrix : gmap (string * string) nat
}.

Section analysis.
Context {rt : Runtime}.
(** The transport: the raw items of a domain, [[]] on any failure. *)
Variable get_keywords : string → list item.

(** The body of [for competitor in competitors], on the two dictionaries
    [all_keywords] and [common_keywords]. *)
Definition competitor_step (competitors : list string) (my_keywords_df : frame)
    (st : dict frame * dict frame) (competitor : string)
    : result (dict frame * dict frame) :=
  let competitor_df := get_keywords competitor in
  if negb (df_empty competitor_df) then
    competitor_df ← extract_keyword_info competitor_df competitors;
    competitor_df ← normalize_keywords competitor_df;
    Ok (dict_set competitor competitor_df st.1,
        dict_set competitor (isin_filter my_keywords_df competitor_df) st.2)
  else Ok st.

(** The loop over the competitors, from [all_keywords = {my_domain:
    my_keywords_df}] and [common_keywords = {}]. *)
Definition competitor_loop (competitors : list string) (my_domain : string)
    (my_keywords_df : frame) : result (dict frame * dict frame) :=
  foldlM (competitor_step competitors my_keywords_df)
         ([(my_domain, my_keywords_df)], []) competitors.

(** The count the matrix loop computes for a pair of domain names. *)
Definition common_count (all_keywords : dict frame) (domain1 domain2 : string)
    : result nat :=
  if decide (domain1 = domain2) then
    df ← dict_getitem all_keywords domain1; Ok (length df)
  else
    df1 ← dict_getitem all_keywords domain1;
    df2 ← dict_getitem all_keywords domain2;
    Ok (size (keyword_set df1 ∩ keyword_set df2)).

(** The two nested loops over [domain_names] that fill the matrix. *)
Definition matrix_loop (all_keywords : dict frame) (domain_names : list string)
    : result (gmap (string * string) nat) :=
  foldlM (λ m domain1,
            foldlM (λ m domain2,
                      common_count ← common_count all_keywords domain1 domain2;
                      Ok (<[(domain1, domain2) := common_count]> m))
                   m domain_names)
         ∅ domain_names.

(** [content_gap_analysis(competitors, my_domain)]; [Ok None] is the
    [return None] taken when no keyword came back for [my_domain].  The
    frames printed on the way select columns of the domain at hand, which
    the extraction has just made. *)
Definition content_gap_analysis (competitors : list string) (my_domain : string)
    : result (option analysis) :=
  let my_keywords_df := get_keywords my_domain in
  if df_empty my_keywords_df then Ok None else
  my_keywords_df ← extract_keyword_info my_keywords_df [my_domain];
  my_keywords_df ← normalize_keywords my_keywords_df;
  st ← competitor_loop competitors my_domain my_keywords_df;
  let all_keywords := st.1 in
  let common_keywords := st.2 in
  let domain_names := my_domain :: competitors in
  common_keywords_matrix ← matrix_loop all_keywords domain_names;
  all_keywords_df ← concat (dict_values all_keywords);
  common_keywords_df ← concat (dict_values common_keywords);
  Ok (Some {| all_keywords_df := all_keywords_df;
              common_keywords_df := common_keywords_df;
              common_keywords_matrix := common_keywords_matrix |}).

End analysis.

(** ** Datasets, as the analysis builds them *)

Section datasets.
Context {rt : Runtime}.
Variable get_keywords : string → list item.

(** The primary domain's dataset: its items extracted in the context
    [[my_domain]], keywords normalised. *)
Definition primary_dataset (my_domain : string) : result frame :=
  extract_keyword_info (get_keywords my_domain) [my_domain] ≫= normalize_keywords.

(** A competitor's dataset: its items extracted in the context of the whole
    competitor list, keywords normalised. *)
Definition competitor_dataset (competitors : list string) (competitor : string)
    : result frame :=
  extract_keyword_info (get_keywords competitor) competitors ≫= normalize_keywords.

(** The dataset [all_keywords] holds for a domain name when the loop is
    over: a name that is a competitor has the competitor's dataset (also
    when it is [my_domain] as well, whose entry the loop overwrites). *)
Definition dataset (competitors : list string) (my_domain d : string) : result frame :=
  if decide (d ∈ competitors) then competitor_dataset competitors d
  else primary_dataset my_domain.

(** The competitors whose fetch gave a non-empty frame. *)
Definition with_data (competitors : list string) : list string :=
  filter (λ c, df_empty (get_keywords c) = false) competitors.

End datasets.

(** The order of the keys of a dictionary filled by assignments in the order
    of [l]: each name once, at the place of its first occurrence. *)
Definition push_key (acc : list string) (k : string) : list string :=
  if decide (k ∈ acc) then acc else acc ++ [k].

Definition insertion_order (l : list string) : list string := foldl push_key [] l.

(** An item lacks an extractable keyword: [keyword_data] is absent or not an
    object, or has no [keyword]. *)
Definition lacks_keyword (it : item) : Prop :=
  match dict_get "keyword_data" it with
  | Some (PDict kd) => dict_get "keyword" kd = None
  | _ => True
  end.

(** ** Normalised keywords, in the words of the specification *)

(** The keyword of a raw item: [keyword_data.keyword], and ["N/A"] where
    [keyword_data] is absent or not an object, or holds no keyword. *)
Definition raw_keyword (it : item) : pyval :=
  match dict_get "keyword_data" it with
  | Some (PDict kd) => default (PStr "N/A") (dict_get "keyword" kd)
  | _ => PStr "N/A"
  end.

(** A keyword normalised: the string in lowercase, leading and trailing
    white space trimmed.  A keyword that is not a string has no text to
    compare: it is a missing value, null where it was null. *)
Definition normalized `{Runtime} (k : pyval) : pyval :=
  match k with
  | PStr s => PStr (strip (lower s))
  | PNone => PNone
  | _ => PNaN
  end.

Definition normalized_keyword `{Runtime} (it : item) : pyval :=
  normalized (raw_keyword it).

(** ** Concrete inputs and runs *)

(** The runtime of the concrete runs below.  Their keywords are ASCII
    strings, so nothing of it is ever consulted: the runs are the same under
    every runtime ([scenario_any_runtime]). *)
Global Instance ascii_runtime : Runtime | 100 :=
  {| unicode_lower := id; unicode_strip := id; infers_text := λ _, false |}.

(** An item that has only a keyword and a traffic estimate. *)
Definition kw_item (k : string) : item :=
  [("keyword_data", PDict [("keyword", PStr k)]);
   ("ranked_serp_element", PDict [("serp_item", PDict [("etv", PInt 3)])])].

(** An item whose [keyword_data] has no keyword. *)
Definition nokw_item : item :=
  [("keyword_data", PDict [("keyword_info", PDict [("search_volume", PInt 10)])]);
   ("ranked_serp_element", PNone)].

(** The scenario of the specification: three primary records, two of them
    the same keyword up to case and white space, and one competitor. *)
Definition scenario (d : string) : list item :=
  if decide (d = "shop.example") then
    [kw_item "running shoes"; kw_item "Running Shoes "; kw_item "trail socks"]
  else if decide (d = "rival.example") then
    [kw_item "running shoes"; kw_item "marathon gear"]
  else [].

(** A run in which each domain has an item without a keyword. *)
Definition scenario_na (d : string) : list item :=
  if decide (d = "shop.example") then [kw_item "trail socks"; nokw_item]
  else if decide (d = "rival.example") then [nokw_item; kw_item "marathon gear"]
  else [].

Definition run_of (x : result (option analysis)) : analysis :=
  match x with
  | Ok (Some r) => r
  | _ => {| all_keywords_df := []; common_keywords_df := [];
            common_keywords_matrix := ∅ |}
  end.

Definition scenario_result : analysis :=
  Eval vm_compute in
    run_of (content_gap_analysis scenario ["rival.example"] "shop.example").

Definition scenario_na_result : analysis :=
  Eval vm_compute in
    run_of (content_gap_analysis scenario_na ["rival.example"] "shop.example").

(** The first record of the scenario's result: the primary domain's record
    of the keyword both domains rank for. *)
Definition scenario_record : record :=
  {| keyword := PStr "running shoes"; search_volume := PInt 0;
     Keyword_Difficulty := PInt 0; CPC := PInt 0;
     last_updated_time := PStr "N/A";
     Position := [("shop.example", PInt 0)];
     Traffic := [("shop.example", PInt 3)] |}.

(** The scenario with a second competitor, for which the transport returns
    no item. *)
Definition scenario_competitors : list string := ["rival.example"; "silent.example"].

(** An item with neither [keyword_data] nor anything the lambdas read in
    it. *)
Definition item_without_keyword_data : item :=
  [("ranked_serp_element", PDict [("serp_item", PDict [("etv", PInt 3)])])].

(** An item of the response contract without [ranked_serp_element]. *)
Definition item_without_serp : item :=
  [("keyword_data",
    PDict [("keyword", PStr "running shoes");
           ("keyword_info",
            PDict [("search_volume", PInt 900); ("cpc", PNone);
                   ("last_updated_time", PStr "2024-05-01")]);
           ("keyword_properties", PDict [("keyword_difficulty", PInt 41)])])].

(** An item whose [keyword_info] is null. *)
Definition item_null_keyword_info : item :=
  [("keyword_data", PDict [("keyword", PStr "running shoes"); ("keyword_info", PNone)]);
   ("ranked_serp_element", PDict [("serp_item", PDict [("etv", PInt 3)])])].

(** An item shaped as the response contract writes it, the backlink rank at
    the top level of the item. *)
Definition contract_item : item :=
  [("keyword_data",
    PDict [("keyword", PStr "running shoes");
           ("keyword_info",
            PDict [("search_volume", PInt 900); ("cpc", PInt 2);
                   ("last_updated_time", PStr "2024-05-01")]);
           ("keyword_properties", PDict [("keyword_difficulty", PInt 41)])]);
   ("avg_backlinks_info", PDict [("rank", PInt 7)]);
   ("ranked_serp_element", PDict [("serp_item", PDict [("etv", PInt 3)])])].

(** An item as the source reads it, the backlink rank inside
    [keyword_data]. *)
Definition provider_item : item :=
  [("keyword_data",
    PDict [("keyword", PStr "running shoes");
           ("avg_backlinks_info", PDict [("rank", PInt 7)])]);
   ("ranked_serp_element", PDict [("serp_item", PDict [("etv", PInt 3)])])].

Definition rows_of (x : result (list record)) : list record :=
  match x with Ok rows => rows | Err _ => [] end.

Definition contract_rows : list record :=
  Eval vm_compute in rows_of (extract_keyword_info [contract_item] ["shop.example"]).

Definition provider_rows : list record :=
  Eval vm_compute in
    rows_of (extract_keyword_info [provider_item] ["shop.example"; "rival.example"]).

(** ** Shape of a normalised string *)

(** The first and the last character of a string, and all of them. *)
Definition first_char (s : string) : option ascii :=
  match s with EmptyString => None | String c _ => Some c end.

Fixpoint last_char (s : string) : option ascii :=
  match s with
  | EmptyString => None
  | String c EmptyString => Some c
  | String _ s' => last_char s'
  end.

Fixpoint chars (s : string) : list ascii :=
  match s with EmptyString => [] | String c s' => c :: chars s' end.

(** An upper-case ASCII letter. *)
Definition is_upper (c : ascii) : bool :=
  (65 <=? nat_of_ascii c)%nat && (nat_of_ascii c <=? 90)%nat.

(** A cell that is not a string with a character outside ASCII. *)
Definition ascii_cell (x : pyval) : bool :=
  match x with PStr s => is_ascii s | _ => true end.

(** A string of white space only. *)
Fixpoint all_space (s : string) : bool :=
  match s with
  | EmptyString => true
  | String c s' => isspace c && all_space s'
  end.

(** ** Frames the extraction accepts *)

(** Some item of the frame has the key: the frame has the column. *)
Definition has_column (c : string) (df : list item) : bool :=
  existsb (λ it, bool_decide (is_Some (dict_get c it))) df.

(** What [d.get(k)] may be for [d.get(k, {}).get(...)] not to raise: absent
    or an object; and for the guarded form [... if d.get(k) else 0]: false
    or an object. *)
Definition absent_or_object (o : option pyval) : bool :=
  match o with None => true | Some v => isinstance_dict v end.

Definition falsy_or_object (o : option pyval) : bool :=
  match o with None => true | Some v => negb (truthy v) || isinstance_dict v end.

(** The items on which no lambda calls [.get] on a value without it:
    [keyword_info] and [keyword_properties] are objects where present, and
    [avg_backlinks_info] and [serp_item] are objects where they are true. *)
Definition well_formed (it : item) : bool :=
  match dict_get "keyword_data" it with
  | Some (PDict kd) =>
      absent_or_object (dict_get "keyword_info" kd)
      && absent_or_object (dict_get "keyword_properties" kd)
      && falsy_or_object (dict_get "avg_backlinks_info" kd)
  | _ => true
  end
  && match dict_get "ranked_serp_element" it with
     | Some (PDict rse) => falsy_or_object (dict_get "serp_item" rse)
     | _ => true
     end.

(** A raw frame on which the extraction returns a frame of as many rows. *)
Definition frame_ok (df : list item) : bool :=
  negb (df_empty df) && has_column "keyword_data" df
  && has_column "ranked_serp_element" df && forallb well_formed df.

(** A raw frame from which the analysis builds a dataset: the extraction
    returns a frame and the [.str] accessor accepts its keyword column. *)
Definition dataset_ok `{Runtime} (df : list item) : bool :=
  frame_ok df && str_accessor (raw_keyword <$> df).

(** The object under a key, empty where the key is absent: what
    [d.get(k, {})] is where no [.get] on it raises. *)
Definition object_at (k : string) (d : dict pyval) : dict pyval :=
  match dict_get k d with Some (PDict o) => o | _ => [] end.

(** The value a record holds for the first domain of its context. *)
Definition first_value (d : dict pyval) : pyval :=
  match d with (_, v) :: _ => v | [] => PNone end.

(** A lambda returns a value (it does not raise). *)
Definition returns {A} (m : result A) : Prop := ∃ a, m = Ok a.

(** ** The transport: [get_data_from_api]

    The function posts the request and decodes the response inside one
    [try] whose [except Exception] returns [[]]: what exception is raised
    does not matter, so a raised exception is [None] here. *)

(** What [requests.post] returned: the status code and the decoded body,
    [None] where [response.json()] raises. *)
Record response : Type := mk_response {
  status_code : Z;
  json : option pyval
}.

(** The bytes that continue the first character of a string, after its
    first byte: those from 128 to 191. *)
Fixpoint continuation (s : string) : string :=
  match s with
  | EmptyString => EmptyString
  | String c s' =>
      if (128 <=? nat_of_ascii c)%nat && (nat_of_ascii c <? 192)%nat
      then String c (continuation s') else EmptyString
  end.

(** [x[0]]: the first element of a non-empty list, the first character of a
    non-empty string; any other value raises (IndexError, KeyError or
    TypeError). *)
Definition py_first (x : pyval) : option pyval :=
  match x with
  | PList (v :: _) => Some v
  | PStr (String c s) => Some (PStr (String c (continuation s)))
  | _ => None
  end.

(** [x.get(k, dflt)], [None] where it raises. *)
Definition py_get_caught (x : pyval) (k : string) (dflt : pyval) : option pyval :=
  match py_get x k dflt with Ok v => Some v | Err _ => None end.

(** [result.get('tasks', [])[0].get('result', [])[0].get('items', [])] *)
Definition items_of_body (result : pyval) : option pyval :=
  tasks ← py_get_caught result "tasks" (PList []);
  task ← py_first tasks;
  results ← py_get_caught task "result" (PList []);
  first_result ← py_first results;
  py_get_caught first_result "items" (PList []).

(** [get_data_from_api(endpoint, payload, headers)], given what the POST
    gave: [None] where [requests.post] itself raises. *)
Definition get_data_from_api (post : option response) : pyval :=
  match post with
  | None => PList []
  | Some response =>
      if (status_code response =? 200)%Z
      then default (PList []) (json response ≫= items_of_body)
      else PList []
  end.

(** A response of the provider with one task, one result and its items. *)
Definition ok_response (items : pyval) : response :=
  {| status_code := 200;
     json := Some (PDict [("status_code", PInt 20000);
                          ("tasks", PList [PDict [("result",
                             PList [PDict [("items", items)]])]])]) |}.

(** ** A keyword column without text *)

(** An item whose keyword is a number. *)
Definition numeric_item (n : Z) : item :=
  [("keyword_data", PDict [("keyword", PInt n)]);
   ("ranked_serp_element", PDict [("serp_item", PDict [("etv", PInt 3)])])].

(** A run in which the keywords of the primary domain are numbers. *)
Definition scenario_numeric (d : string) : list item :=
  if decide (d = "shop.example") then [numeric_item 2024; numeric_item 7]
  else scenario d.

(** ** The competitor loop of the scenario *)

(** The two dictionaries after the loop over the scenario's competitors,
    the silent one included. *)
Definition scenario_loop : dict (list record) * dict (list record) :=
  Eval vm_compute in
    match primary_dataset scenario "shop.example" with
    | Ok primary =>
        match competitor_loop scenario scenario_competitors "shop.example" primary with
        | Ok st => st
        | Err _ => ([], [])
        end
    | Err _ => ([], [])
    end.

(** * Properties *)

(** ** The exception monad *)

Lemma bind_Ok {A B} (f : A → result B) (m : result A) (b : B) :
  m ≫= f = Ok b ↔ ∃ a, m = Ok a ∧ f a = Ok b.
Proof.
  destruct m as [a|e]; simpl; split.
  - intros Hf. by exists a.
  - by intros (a' & [= ->] & Hf).
  - done.
  - by intros (a' & ? & _).
Qed.

Lemma fmap_Ok {A B} (f : A → B) (m : result A) (b : B) :
  f <$> m = Ok b ↔ ∃ a, m = Ok a ∧ b = f a.
Proof.
  destruct m as [a|e]; simpl; split.
  - intros [= <-]. by exists a.
  - by intros (a' & [= ->] & ->).
  - done.
  - by intros (a' & ? & _).
Qed.

(** Turns a hypothesis [m ≫= f = Ok b] into its two steps, repeatedly. *)
Ltac inv_Ok :=
  repeat match goal with
    | H : Ok _ = Ok _ |- _ => injection H as H; try subst
    | H : Err _ = Ok _ |- _ => discriminate H
    | H : mret _ = Ok _ |- _ => injection H as H; try subst
    | H : _ ≫= _ = Ok _ |- _ =>
        let a := fresh "a" in
        let Ha := fresh "Ha" in
        apply bind_Ok in H as (a & Ha & H)
    | H : _ <$> _ = Ok _ |- _ =>
        let a := fresh "a" in
        let Ha := fresh "Ha" in
        apply fmap_Ok in H as (a & Ha & H)
    end.

Lemma mapM_Ok {A B} (f : A → result B) (l : list A) (k : list B) :
  mapM f l = Ok k ↔ Forall2 (λ x y, f x = Ok y) l k.
Proof.
  split.
  - revert k. induction l as [|x l IH]; intros k Hk; simpl in Hk.
    + inv_Ok. constructor.
    + inv_Ok. constructor; auto.
  - induction 1 as [|x y l k Hxy _ IH]; simpl; [done|].
    by rewrite Hxy, IH.
Qed.

Lemma apply_lookup (f : pyval → result pyval) (col out : list pyval) i x :
  apply f col = Ok out → col !! i = Some x → f x = Ok (out !!! i).
Proof.
  unfold apply. rewrite mapM_Ok. intros HF Hx.
  destruct (Forall2_lookup_l _ _ _ _ _ HF Hx) as (y & Hy & Hxy).
  by rewrite (list_lookup_total_correct _ _ _ Hy).
Qed.

Lemma apply_length (f : pyval → result pyval) (col out : list pyval) :
  apply f col = Ok out → length out = length col.
Proof. unfold apply. rewrite mapM_Ok. intros HF. symmetry. by eapply Forall2_length. Qed.

Lemma foldlM_app {S A} (f : S → A → result S) (s : S) (l1 l2 : list A) :
  foldlM f s (l1 ++ l2) = foldlM f s l1 ≫= λ s', foldlM f s' l2.
Proof.
  revert s. induction l1 as [|x l1 IH]; intros s; simpl; [done|].
  destruct (f s x) as [s'|e]; simpl; [apply IH|done].
Qed.

Lemma foldlM_fmap {S A B} (f : S → B → result S) (h : A → B) (s : S) (l : list A) :
  foldlM f s (h <$> l) = foldlM (λ s x, f s (h x)) s l.
Proof.
  revert s. induction l as [|x l IH]; intros s; simpl; [done|].
  destruct (f s (h x)) as [s'|e]; simpl; [apply IH|done].
Qed.

(** Two nested loops over [l] and [l'] are one loop over their pairs. *)
Lemma foldlM_nested {S A B} (g : S → A * B → result S) (s : S) (l : list A) (l' : list B) :
  foldlM (λ s x, foldlM (λ s y, g s (x, y)) s l') s l = foldlM g s (list_prod l l').
Proof.
  revert s. induction l as [|x l IH]; intros s; simpl; [done|].
  rewrite foldlM_app. change (map (λ y, (x, y)) l') with ((λ y, (x, y)) <$> l').
  rewrite foldlM_fmap.
  destruct (foldlM (λ s y, g s (x, y)) s l') as [s'|e]; simpl; [apply IH|done].
Qed.

(** ** Dictionaries *)

Lemma dict_get_set_eq {V} (k : string) (v : V) (d : dict V) :
  dict_get k (dict_set k v d) = Some v.
Proof.
  induction d as [|[k' v'] d IH]; simpl.
  - by rewrite decide_True.
  - destruct (decide (k = k')) as [->|Hne]; simpl.
    + by rewrite decide_True.
    + by rewrite decide_False.
Qed.

Lemma dict_get_set_ne {V} (k k' : string) (v : V) (d : dict V) :
  k ≠ k' → dict_get k' (dict_set k v d) = dict_get k' d.
Proof.
  intros Hne. induction d as [|[k0 v0] d IH]; simpl.
  - by rewrite decide_False.
  - destruct (decide (k = k0)) as [->|Hne0]; simpl.
    + by rewrite !decide_False.
    + by rewrite IH.
Qed.

Lemma dict_set_keys {V} (k : string) (v : V) (d : dict V) :
  (dict_set k v d).*1 = push_key d.*1 k.
Proof.
  unfold push_key. induction d as [|[k' v'] d IH]; csimpl; [done|].
  destruct (decide (k = k')) as [->|Hne]; csimpl.
  - rewrite decide_True; [done|]. left.
  - rewrite IH. destruct (decide (k ∈ d.*1)) as [Hin|Hnin].
    + rewrite decide_True; [done|]. by right.
    + rewrite decide_False; [done|]. by apply not_elem_of_cons.
Qed.

Lemma dict_get_None {V} (k : string) (d : dict V) :
  dict_get k d = None ↔ k ∉ d.*1.
Proof.
  induction d as [|[k' v'] d IH]; csimpl.
  - split; [intros _; apply not_elem_of_nil|done].
  - rewrite not_elem_of_cons. destruct (decide (k = k')) as [->|Hne].
    + split; [done|by intros [? _]].
    + rewrite IH. split; [done|by intros [_ ?]].
Qed.

Lemma dict_get_elem_of {V} (k : string) (v : V) (d : dict V) :
  NoDup d.*1 → (k, v) ∈ d → dict_get k d = Some v.
Proof.
  induction d as [|[k' v'] d IH]; csimpl; intros Hnd Hin.
  - by apply elem_of_nil in Hin.
  - apply NoDup_cons in Hnd as [Hk Hnd].
    apply elem_of_cons in Hin as [[= <- <-]|Hin].
    + by rewrite decide_True.
    + rewrite decide_False; [by apply IH|].
      intros ->. apply Hk. apply list_elem_of_fmap. by exists (k', v).
Qed.

(** The values of a dictionary with distinct keys are what [dict_get] reads
    at its keys, in order. *)
Lemma dict_values_get {V} (d : dict V) :
  NoDup d.*1 → Forall2 (λ k v, dict_get k d = Some v) d.*1 (dict_values d).
Proof.
  intros Hnd. unfold dict_values. apply Forall2_fmap, Forall_Forall2_diag.
  apply Forall_forall. intros [k v] Hin. by apply dict_get_elem_of.
Qed.

(** ** Key order *)

Lemma filter_all {A} (P : A → Prop) `{∀ x, Decision (P x)} (l : list A) :
  Forall P l → filter P l = l.
Proof.
  induction 1 as [|x l Hx _ IH]; [done|]. by rewrite filter_cons_True, IH.
Qed.

Lemma push_key_NoDup (acc : list string) (k : string) :
  NoDup acc → NoDup (push_key acc k).
Proof.
  intros Hnd. unfold push_key. destruct (decide (k ∈ acc)); [done|].
  apply NoDup_app. split_and!; [done| |apply NoDup_singleton].
  intros x Hx ->%list_elem_of_singleton. done.
Qed.

Lemma foldl_push_key_NoDup (acc l : list string) :
  NoDup acc → NoDup (foldl push_key acc l).
Proof.
  revert acc. induction l as [|k l IH]; intros acc Hnd; simpl; [done|].
  by apply IH, push_key_NoDup.
Qed.

Lemma foldl_push_key_distinct (acc l : list string) :
  NoDup (acc ++ l) → foldl push_key acc l = acc ++ l.
Proof.
  revert acc. induction l as [|k l IH]; intros acc Hnd; simpl.
  - by rewrite app_nil_r.
  - unfold push_key at 2. rewrite decide_False.
    + rewrite IH; [by rewrite <-app_assoc|]. by rewrite <-app_assoc.
    + apply NoDup_app in Hnd as (_ & Hdisj & _). intros Hk.
      apply (Hdisj k Hk). left.
Qed.

Lemma insertion_order_distinct (l : list string) :
  NoDup l → insertion_order l = l.
Proof. intros Hnd. by apply (foldl_push_key_distinct []). Qed.

Lemma insertion_order_cons (k : string) (l : list string) :
  insertion_order (k :: l) = foldl push_key [k] l.
Proof. done. Qed.

(** ** The extraction, one item at a time *)

Lemma df_getitem_lookup (df : list item) c col i it :
  df_getitem df c = Ok col → df !! i = Some it →
  col !! i = Some (default PNaN (dict_get c it)).
Proof.
  unfold df_getitem. case_match; [|done]. intros [= <-] Hit.
  by rewrite list_lookup_fmap, Hit.
Qed.

Lemma df_getitem_length (df : list item) c col :
  df_getitem df c = Ok col → length col = length df.
Proof.
  unfold df_getitem. case_match; [|done]. intros [= <-]. apply length_fmap.
Qed.

Lemma column_apply_lookup (df : list item) c f out i it :
  df_getitem df c ≫= apply f = Ok out → df !! i = Some it →
  f (default PNaN (dict_get c it)) = Ok (out !!! i).
Proof.
  intros (col & Hcol & Hout)%bind_Ok Hit.
  eapply apply_lookup; [done|]. by eapply df_getitem_lookup.
Qed.

(** Where the column-wise extraction returns a frame, its rows are the
    records of the items, in the order of the items. *)
Lemma extract_keyword_info_rows (df : list item) (domain_list : list string) rows :
  df_empty df = false →
  extract_keyword_info df domain_list = Ok rows →
  Forall2 (λ it r, normalize domain_list it = Ok r) df rows.
Proof.
  intros Hne. unfold extract_keyword_info. rewrite Hne.
  intros (kw & Hkw & H)%bind_Ok. apply bind_Ok in H as (sv & Hsv & H).
  apply bind_Ok in H as (kd & Hkd & H). apply bind_Ok in H as (cpc & Hcpc & H).
  apply bind_Ok in H as (lut & Hlut & H). apply bind_Ok in H as (cols & Hcols & H).
  injection H as <-.
  apply Forall2_same_length_lookup. split.
  { by rewrite length_fmap, length_seq. }
  intros i it r Hit Hr.
  rewrite list_lookup_fmap in Hr.
  assert (i < length df) as Hi by (by eapply lookup_lt_Some).
  rewrite lookup_seq_lt in Hr by done. injection Hr as <-.
  unfold normalize.
  rewrite (column_apply_lookup _ _ _ _ _ _ Hkw Hit). simpl.
  rewrite (column_apply_lookup _ _ _ _ _ _ Hsv Hit). simpl.
  rewrite (column_apply_lookup _ _ _ _ _ _ Hkd Hit). simpl.
  rewrite (column_apply_lookup _ _ _ _ _ _ Hcpc Hit). simpl.
  rewrite (column_apply_lookup _ _ _ _ _ _ Hlut Hit). simpl.
  assert (mapM (λ domain,
                  pos ← position_of (default PNaN (dict_get "keyword_data" it));
                  tr ← traffic_of (default PNaN (dict_get "ranked_serp_element" it));
                  Ok (domain, pos, tr)) domain_list
          = Ok ((λ c : string * list pyval * list pyval,
                   (c.1.1, c.1.2 !!! i, c.2 !!! i)) <$> cols)) as ->.
  { apply mapM_Ok, Forall2_fmap_r. apply mapM_Ok in Hcols.
    eapply Forall2_impl; [apply Hcols|]. intros d [[d' pos] tr] Hd. simpl in *.
    apply bind_Ok in Hd as (pos' & Hpos & Hd).
    apply bind_Ok in Hd as (tr' & Htr & Hd). injection Hd as <- <- <-.
    rewrite (column_apply_lookup _ _ _ _ _ _ Hpos Hit). simpl.
    by rewrite (column_apply_lookup _ _ _ _ _ _ Htr Hit). }
  simpl. unfold row_at. do 2 f_equal.
  - rewrite <-list_fmap_compose. by apply list_fmap_ext.
  - rewrite <-list_fmap_compose. by apply list_fmap_ext.
Qed.

(** ** The keyword column, lowered and stripped *)

Lemma str_lower_strip_normalized {rt : Runtime} (x : pyval) :
  str_lower_strip x = normalized x.
Proof. by destruct x. Qed.

(** Where the normalisation of the keywords goes through, the accessor
    accepted the column, and every row has its keyword lowered and stripped
    and its other columns as they were. *)
Lemma normalize_keywords_Ok {rt : Runtime} (df f : frame) :
  normalize_keywords df = Ok f →
  str_accessor (keyword <$> df) = true ∧
  Forall2 (λ r0 r, keyword r = str_lower_strip (keyword r0) ∧
                   Position r = Position r0 ∧ Traffic r = Traffic r0) df f.
Proof.
  unfold normalize_keywords. destruct (str_accessor (keyword <$> df)); [|done].
  intros [= <-]. split; [done|]. apply Forall2_fmap_r, Forall_Forall2_diag.
  by apply Forall_true.
Qed.

Lemma normalize_keywords_returns {rt : Runtime} (df : frame) :
  returns (normalize_keywords df) ↔ str_accessor (keyword <$> df) = true.
Proof.
  unfold normalize_keywords, returns.
  destruct (str_accessor (keyword <$> df)); split; try done.
  - intros _. by eexists.
  - by intros [? ?].
Qed.

Lemma normalize_keywords_Err {rt : Runtime} (df : frame) e :
  normalize_keywords df = Err e → e = AttributeError.
Proof.
  unfold normalize_keywords. destruct (str_accessor (keyword <$> df)); [done|].
  by intros [= <-].
Qed.

(** ** The matrix loop *)

(** A loop that writes the cell [key x] with the value [val x] for every [x]
    of a list leaves each such cell with its value, and the other cells as
    they were. *)
Lemma foldlM_insert_lookup `{Countable K} {A} (key : A → K) (val : A → result nat)
    (l : list A) (m0 m : gmap K nat) :
  Inj (=) (=) key →
  foldlM (λ m x, c ← val x; Ok (<[key x := c]> m)) m0 l = Ok m →
  (∀ x, x ∈ l → ∃ n, val x = Ok n ∧ m !! key x = Some n) ∧
  (∀ k, k ∉ key <$> l → m !! k = m0 !! k).
Proof.
  intros Hinj. revert m0. induction l as [|a l IH]; intros m0 Hm; simpl in Hm.
  - injection Hm as <-. split; [|done]. intros x Hx. by apply elem_of_nil in Hx.
  - apply bind_Ok in Hm as (m1 & Hm1 & Hm).
    apply bind_Ok in Hm1 as (n & Hn & Hm1). injection Hm1 as <-.
    destruct (IH _ Hm) as [IH1 IH2]. split.
    + intros x [->|Hx]%elem_of_cons; [|by apply IH1].
      destruct (decide (key a ∈ key <$> l)) as [Hin|Hnin].
      * apply list_elem_of_fmap in Hin as (y & Hy & Hin).
        apply Hinj in Hy as <-. by apply IH1.
      * exists n. split; [done|]. rewrite IH2 by done. apply lookup_insert_eq.
    + intros k Hk. rewrite fmap_cons in Hk. apply not_elem_of_cons in Hk as [Hka Hk].
      rewrite IH2 by done. by apply lookup_insert_ne.
Qed.

Lemma matrix_loop_lookup (all_keywords : dict frame) (domain_names : list string) m :
  matrix_loop all_keywords domain_names = Ok m →
  ∀ a b, a ∈ domain_names → b ∈ domain_names →
    ∃ n, common_count all_keywords a b = Ok n ∧ m !! (a, b) = Some n.
Proof.
  unfold matrix_loop. intros Hm a b Ha Hb.
  rewrite (foldlM_nested
             (λ m p, c ← common_count all_keywords p.1 p.2; Ok (<[(p.1, p.2) := c]> m)))
    in Hm.
  apply (foldlM_insert_lookup (λ p : string * string, (p.1, p.2))
           (λ p, common_count all_keywords p.1 p.2)) in Hm as [Hm _].
  - apply (Hm (a, b)). apply list_elem_of_In, in_prod; by apply list_elem_of_In.
  - by intros [a1 b1] [a2 b2] [= -> ->].
Qed.

(** A cell outside the domain names is never written. *)
Lemma matrix_loop_outside (all_keywords : dict frame) (domain_names : list string) m :
  matrix_loop all_keywords domain_names = Ok m →
  ∀ a b, a ∉ domain_names ∨ b ∉ domain_names → m !! (a, b) = None.
Proof.
  unfold matrix_loop. intros Hm a b Hab.
  rewrite (foldlM_nested
             (λ m p, c ← common_count all_keywords p.1 p.2; Ok (<[(p.1, p.2) := c]> m)))
    in Hm.
  apply (foldlM_insert_lookup (λ p : string * string, (p.1, p.2))
           (λ p, common_count all_keywords p.1 p.2)) in Hm as [_ Hm].
  - rewrite Hm; [done|]. intros ([a' b'] & [= -> ->] & Hin)%list_elem_of_fmap.
    apply list_elem_of_In, in_prod_iff in Hin as [Ha' Hb'].
    rewrite <-!list_elem_of_In in *. by destruct Hab.
  - by intros [a1 b1] [a2 b2] [= -> ->].
Qed.

Lemma common_count_sym (all_keywords : dict frame) (a b : string) n n' :
  common_count all_keywords a b = Ok n → common_count all_keywords b a = Ok n' →
  n = n'.
Proof.
  unfold common_count. destruct (decide (a = b)) as [->|Hne].
  - rewrite decide_True by done. congruence.
  - rewrite decide_False by done.
    intros (fa & Hfa & H1)%bind_Ok. apply bind_Ok in H1 as (fb & Hfb & H1).
    rewrite Hfb, Hfa. simpl. intros [= <-]. injection H1 as <-.
    f_equal. apply (comm_L (∩)).
Qed.

(** ** The competitor loop *)

Section loop.
Context {rt : Runtime}.
Variable get_keywords : string → list item.
Variable competitors : list string.
Variable my_keywords_df : frame.

Local Abbreviation step := (competitor_step get_keywords competitors my_keywords_df).

Lemma competitor_step_with_data st c st' :
  df_empty (get_keywords c) = false →
  step st c = Ok st' →
  ∃ f, competitor_dataset get_keywords competitors c = Ok f ∧
       st' = (dict_set c f st.1, dict_set c (isin_filter my_keywords_df f) st.2).
Proof.
  intros Hc. unfold competitor_step, competitor_dataset. rewrite Hc. simpl.
  intros (f0 & Hf0 & H)%bind_Ok. apply bind_Ok in H as (f & Hf & [= <-]).
  rewrite Hf0. simpl. rewrite Hf. by eexists.
Qed.

Lemma competitor_step_no_data st c st' :
  df_empty (get_keywords c) = true → step st c = Ok st' → st' = st.
Proof. intros Hc. unfold competitor_step. rewrite Hc. simpl. congruence. Qed.

(** What the two dictionaries hold after the loop over [cs]: a competitor
    with data has its dataset and the primary records it shares; any other
    key is as before. *)
Lemma competitor_fold_get cs st st' :
  foldlM step st cs = Ok st' →
  ∀ d,
    (d ∈ with_data get_keywords cs →
       ∃ f, competitor_dataset get_keywords competitors d = Ok f ∧
            dict_get d st'.1 = Some f ∧
            dict_get d st'.2 = Some (isin_filter my_keywords_df f)) ∧
    (d ∉ with_data get_keywords cs →
       dict_get d st'.1 = dict_get d st.1 ∧ dict_get d st'.2 = dict_get d st.2).
Proof.
  revert st. induction cs as [|c cs IH]; intros st Hst d; simpl in Hst.
  - injection Hst as <-. split; [|done]. intros Hd. by apply elem_of_nil in Hd.
  - apply bind_Ok in Hst as (st1 & Hst1 & Hst).
    destruct (IH _ Hst d) as [IH1 IH2].
    destruct (decide (d ∈ with_data get_keywords cs)) as [Hin|Hnin].
    { split; [by intros _; apply IH1|]. intros Hd. exfalso. apply Hd.
      unfold with_data in *. rewrite filter_cons. case_decide; [by right|done]. }
    destruct (IH2 Hnin) as [-> ->].
    unfold with_data in *. rewrite filter_cons.
    destruct (df_empty (get_keywords c)) eqn:Hc.
    + apply competitor_step_no_data in Hst1 as ->; [|done].
      rewrite decide_False by done. split; [done|]. by intros _.
    + apply competitor_step_with_data in Hst1 as (f & Hf & ->); [|done].
      rewrite decide_True by done. simpl. split.
      * intros [->|Hd]%elem_of_cons; [|done]. exists f.
        by rewrite !dict_get_set_eq.
      * intros [Hdc _]%not_elem_of_cons. by rewrite !dict_get_set_ne.
Qed.

Lemma competitor_fold_keys cs st st' :
  foldlM step st cs = Ok st' →
  st'.1.*1 = foldl push_key st.1.*1 (with_data get_keywords cs) ∧
  st'.2.*1 = foldl push_key st.2.*1 (with_data get_keywords cs).
Proof.
  revert st. induction cs as [|c cs IH]; intros st Hst; simpl in Hst.
  - by injection Hst as <-.
  - apply bind_Ok in Hst as (st1 & Hst1 & Hst).
    destruct (IH _ Hst) as [-> ->].
    unfold with_data. rewrite filter_cons.
    destruct (df_empty (get_keywords c)) eqn:Hc.
    + apply competitor_step_no_data in Hst1 as ->; [|done].
      by rewrite decide_False by done.
    + apply competitor_step_with_data in Hst1 as (f & Hf & ->); [|done].
      rewrite decide_True by done. simpl. by rewrite !dict_set_keys.
Qed.

End loop.

(** ** Completed analyses *)

Section completed.
Context {rt : Runtime}.
Variable get_keywords : string → list item.
Variable competitors : list string.
Variable my_domain : string.

(** The steps of a run that returns a result. *)
Lemma content_gap_analysis_inv r :
  content_gap_analysis get_keywords competitors my_domain = Ok (Some r) →
  ∃ primary st,
    df_empty (get_keywords my_domain) = false ∧
    primary_dataset get_keywords my_domain = Ok primary ∧
    competitor_loop get_keywords competitors my_domain primary = Ok st ∧
    matrix_loop st.1 (my_domain :: competitors) = Ok (common_keywords_matrix r) ∧
    concat (dict_values st.1) = Ok (all_keywords_df r) ∧
    concat (dict_values st.2) = Ok (common_keywords_df r).
Proof.
  unfold content_gap_analysis, primary_dataset.
  destruct (df_empty (get_keywords my_domain)) eqn:Hmy; [done|].
  intros (f0 & Hf0 & H)%bind_Ok. apply bind_Ok in H as (f & Hf & H).
  apply bind_Ok in H as (st & Hst & H).
  apply bind_Ok in H as (m & Hm & H). apply bind_Ok in H as (adf & Hadf & H).
  apply bind_Ok in H as (cdf & Hcdf & H). injection H as <-.
  exists f, st. rewrite Hf0. done.
Qed.

(** A competitor without data has no entry in [all_keywords], unless it is
    the primary domain. *)
Lemma competitor_loop_skipped primary st c :
  competitor_loop get_keywords competitors my_domain primary = Ok st →
  df_empty (get_keywords c) = true → c ≠ my_domain →
  dict_get c st.1 = None ∧ dict_get c st.2 = None.
Proof.
  unfold competitor_loop. intros Hst Hc Hne.
  destruct (competitor_fold_get _ _ _ _ _ _ Hst c) as [_ Hout].
  destruct Hout as [-> ->]; simpl.
  - unfold with_data. rewrite list_elem_of_filter. intros [Hc' _]. congruence.
  - by rewrite decide_False.
Qed.

(** In a run whose loops finish, [all_keywords] holds the dataset of every
    domain name. *)
Lemma all_keywords_dataset primary st m d :
  df_empty (get_keywords my_domain) = false →
  primary_dataset get_keywords my_domain = Ok primary →
  competitor_loop get_keywords competitors my_domain primary = Ok st →
  matrix_loop st.1 (my_domain :: competitors) = Ok m →
  d ∈ my_domain :: competitors →
  ∃ f, dataset get_keywords competitors my_domain d = Ok f ∧
       dict_get d st.1 = Some f ∧ df_empty (get_keywords d) = false.
Proof.
  intros Hmy Hprimary Hst Hm Hd.
  destruct (matrix_loop_lookup _ _ _ Hm d d Hd Hd) as (n & Hn & _).
  unfold common_count in Hn. rewrite decide_True in Hn by done.
  apply bind_Ok in Hn as (f & Hf & _). unfold dict_getitem in Hf.
  destruct (dict_get d st.1) as [f'|] eqn:Hget; [|done]. injection Hf as ->.
  unfold competitor_loop in Hst.
  destruct (competitor_fold_get _ _ _ _ _ _ Hst d) as [Hin Hout].
  unfold dataset.
  destruct (decide (d ∈ with_data get_keywords competitors)) as [Hwd|Hnwd].
  - destruct (Hin Hwd) as (f' & Hf' & Hget' & _).
    unfold with_data in Hwd. apply list_elem_of_filter in Hwd as [Hdd Hdc].
    rewrite decide_True by done. exists f. split_and!; [congruence|done|done].
  - destruct (Hout Hnwd) as [Hget' _]. rewrite Hget in Hget'. simpl in Hget'.
    destruct (decide (d = my_domain)) as [->|]; [|done]. injection Hget' as ->.
    rewrite decide_False; [by exists primary|].
    intros Hc. apply Hnwd. unfold with_data. by apply list_elem_of_filter.
Qed.

(** Every competitor of a run whose loops finish has data. *)
Lemma finished_with_data primary st m :
  df_empty (get_keywords my_domain) = false →
  primary_dataset get_keywords my_domain = Ok primary →
  competitor_loop get_keywords competitors my_domain primary = Ok st →
  matrix_loop st.1 (my_domain :: competitors) = Ok m →
  with_data get_keywords competitors = competitors.
Proof.
  intros Hmy Hprimary Hst Hm. unfold with_data.
  apply filter_all, Forall_forall. intros c Hc.
  by destruct (all_keywords_dataset _ _ _ c Hmy Hprimary Hst Hm) as (f & _ & _ & ?);
    [by right|].
Qed.

End completed.

(** ** The scenario, run *)

Lemma scenario_completes :
  content_gap_analysis scenario ["rival.example"] "shop.example"
  = Ok (Some scenario_result).
Proof. vm_compute. reflexivity. Qed.

Lemma scenario_na_completes :
  content_gap_analysis scenario_na ["rival.example"] "shop.example"
  = Ok (Some scenario_na_result).
Proof. vm_compute. reflexivity. Qed.

(** The runs of the scenarios are the same under every runtime. *)
Lemma scenario_any_runtime (rt : Runtime) :
  content_gap_analysis scenario ["rival.example"] "shop.example"
  = Ok (Some scenario_result) ∧
  content_gap_analysis scenario_na ["rival.example"] "shop.example"
  = Ok (Some scenario_na_result).
Proof. split; vm_compute; reflexivity. Qed.

(** The counts of the scenario: 3 and 2 on the diagonal, 1 off it. *)
Example scenario_matrix :
  map_to_list (common_keywords_matrix scenario_result)
  = [("shop.example", "shop.example", 3); ("shop.example", "rival.example", 1);
     ("rival.example", "shop.example", 1); ("rival.example", "rival.example", 2)].
Proof. vm_compute. reflexivity. Qed.

(** ** Shared facts about a completed run *)

Lemma elem_of_foldl_push_key (acc l : list string) (k : string) :
  k ∈ foldl push_key acc l ↔ k ∈ acc ∨ k ∈ l.
Proof.
  revert acc. induction l as [|x l IH]; intros acc; simpl.
  - rewrite elem_of_nil. tauto.
  - rewrite IH, elem_of_cons. unfold push_key. case_decide as Hx.
    + split; [tauto|]. intros [?|[->|?]]; tauto.
    + rewrite elem_of_app, list_elem_of_singleton. tauto.
Qed.

Lemma Forall2_split {A B C} (P : A → B → Prop) (Q : B → C → Prop)
    (l : list A) (k : list C) :
  Forall2 (λ x z, ∃ y, P x y ∧ Q y z) l k →
  ∃ m, Forall2 P l m ∧ Forall2 Q m k.
Proof.
  induction 1 as [|x z l k (y & HP & HQ) _ (m & HPm & HQm)].
  - exists []. split; constructor.
  - exists (y :: m). split; by constructor.
Qed.

Lemma concat_Ok (frames : list (list record)) df :
  concat frames = Ok df → df = mjoin frames.
Proof. destruct frames; [done|]. by intros [= <-]. Qed.

Lemma elem_of_keyword_set (df : list record) (k : pyval) :
  k ∈ keyword_set df ↔ ∃ r, r ∈ df ∧ keyword r = k.
Proof.
  unfold keyword_set. rewrite elem_of_list_to_set, list_elem_of_fmap.
  split; intros (r & H1 & H2); exists r; done.
Qed.

Lemma lacks_keyword_normalize (domain_list : list string) (it : item) r :
  lacks_keyword it → normalize domain_list it = Ok r → keyword r = PStr "N/A".
Proof.
  unfold lacks_keyword, normalize. intros Hit.
  intros (kw & Hkw & H)%bind_Ok. apply bind_Ok in H as (sv & Hsv & H).
  apply bind_Ok in H as (kd & Hkd & H). apply bind_Ok in H as (cpc & Hcpc & H).
  apply bind_Ok in H as (lut & Hlut & H). apply bind_Ok in H as (cols & Hcols & H).
  injection H as <-. simpl. clear -Hit Hkw. unfold keyword_of in Hkw.
  destruct (dict_get "keyword_data" it) as [[]|];
    cbn [default from_option id isinstance_dict py_get] in Hkw;
    try by injection Hkw as <-.
  rewrite Hit in Hkw. by injection Hkw as <-.
Qed.

(** The rows of a frame after extraction and normalisation of the
    keywords. *)
Lemma normalized_rows {rt : Runtime} (df : list item) (domain_list : list string) f :
  extract_keyword_info df domain_list ≫= normalize_keywords = Ok f →
  df_empty df = false →
  Forall2 (λ it r, ∃ r0, normalize domain_list it = Ok r0 ∧
                         keyword r = str_lower_strip (keyword r0)) df f.
Proof.
  intros (rows & Hrows & Hf)%bind_Ok Hne.
  apply extract_keyword_info_rows in Hrows; [|done].
  apply normalize_keywords_Ok in Hf as [_ Hf].
  apply Forall2_same_length_lookup. split.
  { by rewrite (Forall2_length _ _ _ Hrows), (Forall2_length _ _ _ Hf). }
  intros i it r Hit Hr.
  destruct (Forall2_lookup_l _ _ _ _ _ Hrows Hit) as (r0 & Hr0 & Hnorm).
  destruct (Forall2_lookup_lr _ _ _ _ _ _ Hf Hr0 Hr) as (Hk & _).
  by exists r0.
Qed.

(** The keyword of the record of an item is the item's keyword. *)
Lemma keyword_of_raw_keyword (it : item) :
  keyword_of (default PNaN (dict_get "keyword_data" it)) = Ok (raw_keyword it).
Proof.
  unfold keyword_of, raw_keyword.
  by destruct (dict_get "keyword_data" it) as [[]|].
Qed.

Lemma normalize_raw_keyword (domain_list : list string) (it : item) r :
  normalize domain_list it = Ok r → keyword r = raw_keyword it.
Proof.
  unfold normalize. rewrite keyword_of_raw_keyword.
  intros (kw & [= <-] & H)%bind_Ok. apply bind_Ok in H as (sv & Hsv & H).
  apply bind_Ok in H as (kd & Hkd & H). apply bind_Ok in H as (cpc & Hcpc & H).
  apply bind_Ok in H as (lut & Hlut & H). apply bind_Ok in H as (cols & Hcols & H).
  by injection H as <-.
Qed.

(** The keyword column of a frame after extraction and normalisation: the
    normalised keywords of the items, in their order. *)
Lemma normalized_keywords {rt : Runtime} (df : list item) (domain_list : list string) f :
  extract_keyword_info df domain_list ≫= normalize_keywords = Ok f →
  df_empty df = false →
  keyword <$> f = normalized_keyword <$> df.
Proof.
  intros Hf Hne. pose proof (normalized_rows _ _ _ Hf Hne) as Hrows.
  clear Hf Hne. induction Hrows as [|it r df f (r0 & Hr0 & Hk) _ IH]; [done|].
  csimpl. rewrite IH, Hk, (normalize_raw_keyword _ _ _ Hr0).
  by rewrite str_lower_strip_normalized.
Qed.

(** The record of an item without a keyword carries ["n/a"]. *)
Lemma lacking_row {rt : Runtime} (df : list item) (domain_list : list string) f i it :
  Forall2 (λ it r, ∃ r0, normalize domain_list it = Ok r0 ∧
                         keyword r = str_lower_strip (keyword r0)) df f →
  df !! i = Some it → lacks_keyword it →
  ∃ r, f !! i = Some r ∧ r ∈ f ∧ keyword r = PStr "n/a".
Proof.
  intros HF Hit Hlacks.
  destruct (Forall2_lookup_l _ _ _ _ _ HF Hit) as (r & Hr & r0 & Hr0 & Hkw).
  exists r. split_and!; [done|by eapply list_elem_of_lookup_2|].
  by rewrite Hkw, (lacks_keyword_normalize _ _ _ Hlacks Hr0).
Qed.

Section facts.
Context {rt : Runtime}.
Variable get_keywords : string → list item.
Variable competitors : list string.
Variable my_domain : string.

(** The rows of a domain's dataset are the records of its items, keywords
    normalised. *)
Lemma dataset_rows d f :
  d ∈ my_domain :: competitors →
  dataset get_keywords competitors my_domain d = Ok f →
  df_empty (get_keywords d) = false →
  ∃ domain_list,
    Forall2 (λ it r, ∃ r0, normalize domain_list it = Ok r0 ∧
                           keyword r = str_lower_strip (keyword r0))
            (get_keywords d) f.
Proof.
  intros Hd Hf Hne. unfold dataset in Hf.
  destruct (decide (d ∈ competitors)) as [Hc|Hnc].
  - exists competitors. by apply normalized_rows.
  - apply elem_of_cons in Hd as [->|Hd]; [|done].
    exists [my_domain]. by apply normalized_rows.
Qed.

(** The entry of the matrix for two domain names of a completed run. *)
Lemma matrix_entry r a b :
  content_gap_analysis get_keywords competitors my_domain = Ok (Some r) →
  a ∈ my_domain :: competitors → b ∈ my_domain :: competitors →
  ∃ dsa dsb,
    dataset get_keywords competitors my_domain a = Ok dsa ∧
    dataset get_keywords competitors my_domain b = Ok dsb ∧
    df_empty (get_keywords a) = false ∧ df_empty (get_keywords b) = false ∧
    common_keywords_matrix r !! (a, b)
    = Some (if decide (a = b) then length dsa
            else size (keyword_set dsa ∩ keyword_set dsb)).
Proof.
  intros (primary & st & Hmy & Hprimary & Hst & Hm & _)%content_gap_analysis_inv Ha Hb.
  destruct (all_keywords_dataset _ _ _ _ _ _ a Hmy Hprimary Hst Hm Ha)
    as (dsa & Hdsa & Hga & Hea).
  destruct (all_keywords_dataset _ _ _ _ _ _ b Hmy Hprimary Hst Hm Hb)
    as (dsb & Hdsb & Hgb & Heb).
  exists dsa, dsb. split_and!; try done.
  destruct (matrix_loop_lookup _ _ _ Hm a b Ha Hb) as (n & Hn & ->).
  f_equal. unfold common_count, dict_getitem in Hn.
  destruct (decide (a = b)) as [->|Hne].
  - rewrite Hga in Hn. simpl in Hn. by injection Hn as <-.
  - rewrite Hga, Hgb in Hn. simpl in Hn. by injection Hn as <-.
Qed.

(** The keyword column of the dataset of a domain name of a completed run:
    the normalised keywords of the items of the domain, in their order. *)
Lemma dataset_keywords r d ds :
  content_gap_analysis get_keywords competitors my_domain = Ok (Some r) →
  d ∈ my_domain :: competitors →
  dataset get_keywords competitors my_domain d = Ok ds →
  keyword <$> ds = normalized_keyword <$> get_keywords d.
Proof.
  intros Hrun Hd Hds.
  destruct (matrix_entry r d d Hrun Hd Hd) as (ds' & _ & _ & _ & Hne & _ & _).
  unfold dataset, competitor_dataset, primary_dataset in Hds.
  destruct (decide (d ∈ competitors)).
  - by eapply normalized_keywords.
  - apply elem_of_cons in Hd as [->|?]; [|done]. by eapply normalized_keywords.
Qed.

Lemma primary_keywords r primary :
  content_gap_analysis get_keywords competitors my_domain = Ok (Some r) →
  primary_dataset get_keywords my_domain = Ok primary →
  keyword <$> primary = normalized_keyword <$> get_keywords my_domain.
Proof.
  intros (primary' & st & Hmy & _)%content_gap_analysis_inv Hprimary.
  by eapply normalized_keywords.
Qed.

Lemma competitor_keywords r c cds :
  content_gap_analysis get_keywords competitors my_domain = Ok (Some r) →
  c ∈ competitors →
  competitor_dataset get_keywords competitors c = Ok cds →
  keyword <$> cds = normalized_keyword <$> get_keywords c.
Proof.
  intros Hrun Hc Hcds. apply (dataset_keywords r); [done|by right|].
  unfold dataset. by rewrite decide_True.
Qed.

(** The two concatenations of a completed run. *)
Lemma analysis_concat r :
  content_gap_analysis get_keywords competitors my_domain = Ok (Some r) →
  ∃ primary dss css,
    primary_dataset get_keywords my_domain = Ok primary ∧
    mapM (dataset get_keywords competitors my_domain)
         (insertion_order (my_domain :: with_data get_keywords competitors)) = Ok dss ∧
    all_keywords_df r = mjoin dss ∧
    mapM (competitor_dataset get_keywords competitors)
         (insertion_order (with_data get_keywords competitors)) = Ok css ∧
    common_keywords_df r = mjoin (isin_filter primary <$> css).
Proof.
  intros (primary & st & Hmy & Hprimary & Hst & Hm & Hall & Hcommon)%content_gap_analysis_inv.
  pose proof Hst as Hloop. unfold competitor_loop in Hloop.
  destruct (competitor_fold_keys _ _ _ _ _ _ Hloop) as [Hk1 Hk2]. simpl in Hk1, Hk2.
  apply concat_Ok in Hall, Hcommon.
  assert (Forall2 (λ k v, dataset get_keywords competitors my_domain k = Ok v)
            (insertion_order (my_domain :: with_data get_keywords competitors))
            (dict_values st.1)) as Hdss.
  { rewrite insertion_order_cons, <-Hk1.
    assert (NoDup st.1.*1) as Hnd.
    { rewrite Hk1. apply foldl_push_key_NoDup, NoDup_singleton. }
    apply Forall2_same_length_lookup. pose proof (dict_values_get _ Hnd) as HF.
    split; [by eapply Forall2_length|].
    intros i k v Hk Hv.
    pose proof (Forall2_lookup_lr _ _ _ _ _ _ HF Hk Hv) as Hget.
    assert (k ∈ my_domain :: competitors) as Hin.
    { apply list_elem_of_lookup_2 in Hk. rewrite Hk1 in Hk.
      apply elem_of_foldl_push_key in Hk as [Hk|Hk].
      - apply list_elem_of_singleton in Hk as ->. left.
      - right. unfold with_data in Hk. by apply list_elem_of_filter in Hk as [_ ?]. }
    destruct (all_keywords_dataset _ _ _ _ _ _ k Hmy Hprimary Hst Hm Hin)
      as (f & Hf & Hgf & _). congruence. }
  assert (Forall2 (λ c v, ∃ f, competitor_dataset get_keywords competitors c = Ok f ∧
                               v = isin_filter primary f)
            (insertion_order (with_data get_keywords competitors))
            (dict_values st.2)) as Hcss.
  { unfold insertion_order. rewrite <-Hk2.
    assert (NoDup st.2.*1) as Hnd.
    { rewrite Hk2. apply foldl_push_key_NoDup, NoDup_nil_2. }
    apply Forall2_same_length_lookup. pose proof (dict_values_get _ Hnd) as HF.
    split; [by eapply Forall2_length|].
    intros i k v Hk Hv.
    pose proof (Forall2_lookup_lr _ _ _ _ _ _ HF Hk Hv) as Hget.
    assert (k ∈ with_data get_keywords competitors) as Hin.
    { apply list_elem_of_lookup_2 in Hk. rewrite Hk2 in Hk.
      apply elem_of_foldl_push_key in Hk as [Hk|Hk]; [|done].
      by apply elem_of_nil in Hk. }
    destruct (competitor_fold_get _ _ _ _ _ _ Hloop k) as [Hwd _].
    destruct (Hwd Hin) as (f & Hf & _ & Hgf). exists f. split; [done|]. congruence. }
  apply Forall2_split in Hcss as (css & Hcss & Hv).
  exists primary, (dict_values st.1), css. split_and!; try done.
  - by apply mapM_Ok.
  - by apply mapM_Ok.
  - rewrite Hcommon. f_equal. clear -Hv.
    induction Hv as [|f v css vs -> _ IH]; [done|]. csimpl. by rewrite IH.
Qed.

End facts.

(** ** Per-domain columns of a record *)

Lemma df_empty_lookup (df : list item) i it :
  df !! i = Some it → it ≠ [] → df_empty df = false.
Proof.
  intros Hit Hne. apply not_true_is_false. unfold df_empty.
  rewrite forallb_forall. intros Hall.
  specialize (Hall it). rewrite <-list_elem_of_In in Hall.
  specialize (Hall (list_elem_of_lookup_2 _ _ _ Hit)). by destruct it.
Qed.

(** Every domain of the context reads the same two values, computed from
    the item alone. *)
Lemma normalize_by_domain (domain_list : list string) (it : item) row d :
  normalize domain_list it = Ok row → d ∈ domain_list →
  ∃ pos tr,
    position_of (default PNaN (dict_get "keyword_data" it)) = Ok pos ∧
    traffic_of (default PNaN (dict_get "ranked_serp_element" it)) = Ok tr ∧
    dict_get d (Position row) = Some pos ∧ dict_get d (Traffic row) = Some tr.
Proof.
  unfold normalize.
  intros (kw & Hkw & H)%bind_Ok. apply bind_Ok in H as (sv & Hsv & H).
  apply bind_Ok in H as (kd & Hkd & H). apply bind_Ok in H as (cpc & Hcpc & H).
  apply bind_Ok in H as (lut & Hlut & H). apply bind_Ok in H as (cols & Hcols & H).
  injection H as <-. simpl. clear Hkw Hsv Hkd Hcpc Hlut.
  apply mapM_Ok in Hcols. intros Hd.
  induction Hcols as [|d' c dl cols Hc _ IH]; [by apply elem_of_nil in Hd|].
  apply bind_Ok in Hc as (pos & Hpos & Hc). apply bind_Ok in Hc as (tr & Htr & Hc).
  injection Hc as <-. csimpl.
  destruct (decide (d = d')) as [->|Hne].
  - by exists pos, tr.
  - apply elem_of_cons in Hd as [?|Hd]; [done|]. by apply IH.
Qed.

(** ** Defaults of the lambdas *)

(** A [keyword_data] cell that is not an object (absent, so NaN, or null or
    any other value) gives every default. *)
Lemma defaults_not_object (x : pyval) :
  isinstance_dict x = false →
  keyword_of x = Ok (PStr "N/A") ∧ search_volume_of x = Ok (PInt 0) ∧
  keyword_difficulty_of x = Ok (PInt 0) ∧ cpc_of x = Ok (PInt 0) ∧
  last_updated_time_of x = Ok (PStr "N/A") ∧ position_of x = Ok (PInt 0).
Proof.
  intros Hx.
  unfold keyword_of, search_volume_of, keyword_difficulty_of, cpc_of,
    last_updated_time_of, position_of.
  by rewrite Hx.
Qed.

(** Without [keyword_info] the three fields read from it take their
    defaults, and the keyword is still read. *)
Lemma defaults_no_keyword_info (kd : dict pyval) :
  dict_get "keyword_info" kd = None →
  search_volume_of (PDict kd) = Ok (PInt 0) ∧ cpc_of (PDict kd) = Ok (PInt 0) ∧
  last_updated_time_of (PDict kd) = Ok (PStr "N/A") ∧
  keyword_of (PDict kd) = Ok (default (PStr "N/A") (dict_get "keyword" kd)).
Proof.
  intros Hki. unfold search_volume_of, cpc_of, last_updated_time_of, keyword_of.
  cbn [isinstance_dict py_get]. by rewrite Hki.
Qed.

Lemma defaults_null_cpc (kd ki : dict pyval) :
  dict_get "keyword_info" kd = Some (PDict ki) → dict_get "cpc" ki = Some PNone →
  cpc_of (PDict kd) = Ok (PInt 0).
Proof.
  intros Hki Hcpc. unfold cpc_of. cbn [isinstance_dict py_get].
  rewrite Hki. cbn [default from_option id mbind result_bind py_get]. by rewrite Hcpc.
Qed.

Lemma defaults_no_keyword_properties (kd : dict pyval) :
  dict_get "keyword_properties" kd = None →
  keyword_difficulty_of (PDict kd) = Ok (PInt 0).
Proof.
  intros Hkp. unfold keyword_difficulty_of. cbn [isinstance_dict py_get].
  by rewrite Hkp.
Qed.

(** ** A skipped competitor *)

(** A run with a competitor that has no data never returns a result: the
    matrix loop ranges over all the competitors and reads [all_keywords] at
    the one that was skipped. *)
Lemma skipped_competitor_never_completes
    {rt : Runtime} (get_keywords : string → list item) competitors my_domain c r :
  c ∈ competitors → df_empty (get_keywords c) = true →
  content_gap_analysis get_keywords competitors my_domain ≠ Ok (Some r).
Proof.
  intros Hc Hempty Hrun.
  destruct (matrix_entry _ _ _ r c c Hrun) as (_ & _ & _ & _ & Hne & _ & _);
    [by right..|]. congruence.
Qed.

(** * The claims *)

(** C1 (the code differs). A competitor whose fetch is empty is skipped by
    the loop, yet the matrix is built over all the competitors: the run of
    the scenario with one more, silent competitor raises [KeyError] at that
    competitor instead of returning a result without it. *)
Theorem C1_skipped_competitor_raises :
  df_empty (scenario "shop.example") = false ∧
  scenario "silent.example" = [] ∧
  ∀ rt : Runtime,
    content_gap_analysis scenario scenario_competitors "shop.example"
    = Err (KeyError "silent.example").
Proof. split_and!; [vm_compute; reflexivity..|]. intros rt. vm_compute. reflexivity. Qed.

(** C2. In a completed analysis the entry of the matrix for two distinct
    domain names is the number of distinct normalised keywords the two
    domains share: the keyword column of each dataset holds the normalised
    keywords of the domain's items (lowercase, white space trimmed), and the
    entry counts, each once, the values that occur in both. *)
Theorem C2_off_diagonal {rt : Runtime} (get_keywords : string → list item)
    competitors my_domain r a b :
  content_gap_analysis get_keywords competitors my_domain = Ok (Some r) →
  a ∈ my_domain :: competitors → b ∈ my_domain :: competitors → a ≠ b →
  ∃ dsa dsb shared,
    dataset get_keywords competitors my_domain a = Ok dsa ∧
    dataset get_keywords competitors my_domain b = Ok dsb ∧
    keyword <$> dsa = normalized_keyword <$> get_keywords a ∧
    keyword <$> dsb = normalized_keyword <$> get_keywords b ∧
    NoDup shared ∧
    (∀ k, k ∈ shared ↔
          (∃ ita, ita ∈ get_keywords a ∧ normalized_keyword ita = k) ∧
          (∃ itb, itb ∈ get_keywords b ∧ normalized_keyword itb = k)) ∧
    common_keywords_matrix r !! (a, b) = Some (length shared).
Proof.
  intros Hrun Ha Hb Hne.
  destruct (matrix_entry _ _ _ r a b Hrun Ha Hb) as (dsa & dsb & Hdsa & Hdsb & _ & _ & Hm).
  rewrite decide_False in Hm by done.
  pose proof (dataset_keywords _ _ _ r a dsa Hrun Ha Hdsa) as Hka.
  pose proof (dataset_keywords _ _ _ r b dsb Hrun Hb Hdsb) as Hkb.
  exists dsa, dsb, (elements (keyword_set dsa ∩ keyword_set dsb)).
  split_and!; try done.
  - apply NoDup_elements.
  - intros k. rewrite elem_of_elements, elem_of_intersection. unfold keyword_set.
    rewrite !elem_of_list_to_set, Hka, Hkb, !list_elem_of_fmap.
    split.
    + intros [(ita & -> & Hita) (itb & Hk & Hitb)]. split; [by exists ita|by exists itb].
    + intros [(ita & Hita & <-) (itb & Hitb & Hk)]. split; [by exists ita|by exists itb].
Qed.

Lemma C2_off_diagonal_witness :
  raw_keyword <$> scenario "shop.example"
  = [PStr "running shoes"; PStr "Running Shoes "; PStr "trail socks"] ∧
  normalized_keyword <$> scenario "shop.example"
  = [PStr "running shoes"; PStr "running shoes"; PStr "trail socks"] ∧
  normalized_keyword <$> scenario "rival.example"
  = [PStr "running shoes"; PStr "marathon gear"] ∧
  ∃ dsa dsb shared,
    dataset scenario ["rival.example"] "shop.example" "shop.example" = Ok dsa ∧
    dataset scenario ["rival.example"] "shop.example" "rival.example" = Ok dsb ∧
    keyword <$> dsa = normalized_keyword <$> scenario "shop.example" ∧
    keyword <$> dsb = normalized_keyword <$> scenario "rival.example" ∧
    NoDup shared ∧
    (∀ k, k ∈ shared ↔
          (∃ ita, ita ∈ scenario "shop.example" ∧ normalized_keyword ita = k) ∧
          (∃ itb, itb ∈ scenario "rival.example" ∧ normalized_keyword itb = k)) ∧
    common_keywords_matrix scenario_result !! ("shop.example", "rival.example")
    = Some (length shared).
Proof.
  split_and!; [vm_compute; reflexivity..|].
  apply (C2_off_diagonal scenario ["rival.example"] "shop.example").
  - vm_compute. reflexivity.
  - left.
  - right. left.
  - discriminate.
Defined.

(** The scenario: the normalised keywords of the two domains, of which one
    is shared. *)
Example scenario_normalized_keywords :
  normalized_keyword <$> scenario "shop.example"
  = [PStr "running shoes"; PStr "running shoes"; PStr "trail socks"] ∧
  normalized_keyword <$> scenario "rival.example"
  = [PStr "running shoes"; PStr "marathon gear"] ∧
  common_keywords_matrix scenario_result !! ("shop.example", "rival.example") = Some 1.
Proof. split_and!; vm_compute; reflexivity. Qed.

(** C3. In a completed analysis the common-keyword subset of a competitor
    with data is the primary dataset filtered by membership of the keyword
    among the normalised keywords of the competitor's items, the keyword of
    a primary record being the normalised keyword of its item: the records
    that pass are kept in order, each as often as it occurs. *)
Theorem C3_common_subset {rt : Runtime} (get_keywords : string → list item)
    competitors my_domain r :
  content_gap_analysis get_keywords competitors my_domain = Ok (Some r) →
  ∃ primary st,
    primary_dataset get_keywords my_domain = Ok primary ∧
    competitor_loop get_keywords competitors my_domain primary = Ok st ∧
    keyword <$> primary = normalized_keyword <$> get_keywords my_domain ∧
    ∀ c, c ∈ competitors → df_empty (get_keywords c) = false →
      ∃ cds sub,
        competitor_dataset get_keywords competitors c = Ok cds ∧
        keyword <$> cds = normalized_keyword <$> get_keywords c ∧
        dict_get c st.2 = Some sub ∧
        sub = filter (λ x, keyword x ∈ normalized_keyword <$> get_keywords c) primary ∧
        ∀ x, x ∈ sub ↔
             x ∈ primary ∧ ∃ itc, itc ∈ get_keywords c ∧ keyword x = normalized_keyword itc.
Proof.
  intros Hrun.
  destruct (content_gap_analysis_inv _ _ _ _ Hrun)
    as (primary & st & Hmy & Hprimary & Hst & _).
  exists primary, st. split_and!; [done..|by eapply primary_keywords|].
  intros c Hc Hne. unfold competitor_loop in Hst.
  destruct (competitor_fold_get _ _ _ _ _ _ Hst c) as [Hin _].
  destruct Hin as (cds & Hcds & _ & Hsub).
  { unfold with_data. by apply list_elem_of_filter. }
  pose proof (competitor_keywords _ _ _ r c cds Hrun Hc Hcds) as Hk.
  exists cds, (isin_filter primary cds). split_and!; [done..| |].
  - unfold isin_filter. by rewrite Hk.
  - intros x. unfold isin_filter. rewrite list_elem_of_filter, Hk, list_elem_of_fmap.
    split.
    + intros [(y & Hy & Hin) Hx]. split; [done|]. by exists y.
    + intros [Hx (y & Hin & Hy)]. split; [|done]. by exists y.
Qed.

Lemma C3_common_subset_witness :
  raw_keyword <$> scenario "shop.example"
  = [PStr "running shoes"; PStr "Running Shoes "; PStr "trail socks"] ∧
  normalized_keyword <$> scenario "shop.example"
  = [PStr "running shoes"; PStr "running shoes"; PStr "trail socks"] ∧
  normalized_keyword <$> scenario "rival.example"
  = [PStr "running shoes"; PStr "marathon gear"] ∧
  ∃ primary st,
    primary_dataset scenario "shop.example" = Ok primary ∧
    competitor_loop scenario ["rival.example"] "shop.example" primary = Ok st ∧
    keyword <$> primary = normalized_keyword <$> scenario "shop.example" ∧
    ∀ c, c ∈ ["rival.example"] → df_empty (scenario c) = false →
      ∃ cds sub,
        competitor_dataset scenario ["rival.example"] c = Ok cds ∧
        keyword <$> cds = normalized_keyword <$> scenario c ∧
        dict_get c st.2 = Some sub ∧
        sub = filter (λ x, keyword x ∈ normalized_keyword <$> scenario c) primary ∧
        ∀ x, x ∈ sub ↔
             x ∈ primary ∧ ∃ itc, itc ∈ scenario c ∧ keyword x = normalized_keyword itc.
Proof.
  split_and!; [vm_compute; reflexivity..|].
  apply (C3_common_subset scenario ["rival.example"] "shop.example" scenario_result).
  vm_compute. reflexivity.
Defined.

(** The subset of the scenario: both primary records of "running shoes". *)
Example scenario_common :
  keyword <$> common_keywords_df scenario_result
  = [PStr "running shoes"; PStr "running shoes"].
Proof. vm_compute. reflexivity. Qed.

(** C4. When the transport returns no item for the primary domain, the
    analysis returns [None]: no matrix and no dataset. *)
Theorem C4_empty_primary {rt : Runtime} (get_keywords : string → list item)
    competitors my_domain :
  get_keywords my_domain = [] →
  content_gap_analysis get_keywords competitors my_domain = Ok None.
Proof. intros Hmy. unfold content_gap_analysis. by rewrite Hmy. Qed.

Lemma C4_empty_primary_witness :
  content_gap_analysis scenario ["rival.example"] "unknown.example" = Ok None.
Proof.
  apply (C4_empty_primary scenario ["rival.example"] "unknown.example").
  vm_compute. reflexivity.
Defined.

(** C5 (the code differs). The extraction raises instead of filling in the
    defaults: [KeyError] when no item of the frame has [keyword_data], or
    none has [ranked_serp_element], and [AttributeError] when [keyword_info]
    is null.  The same items give a record with the defaults in a frame in
    which another item has the column ([mixed_frame_rows]). *)
Theorem C5_extraction_raises :
  extract_keyword_info [item_without_keyword_data] ["shop.example"]
  = Err (KeyError "keyword_data") ∧
  extract_keyword_info [item_without_serp] ["shop.example"]
  = Err (KeyError "ranked_serp_element") ∧
  extract_keyword_info [item_null_keyword_info] ["shop.example"]
  = Err AttributeError.
Proof. split_and!; vm_compute; reflexivity. Qed.

Example mixed_frame_rows :
  (keyword <$> rows_of (extract_keyword_info
                          [kw_item "trail socks"; item_without_keyword_data]
                          ["shop.example"]))
  = [PStr "trail socks"; PStr "N/A"] ∧
  (Traffic <$> rows_of (extract_keyword_info
                          [kw_item "trail socks"; item_without_serp]
                          ["shop.example"]))
  = [[("shop.example", PInt 3)]; [("shop.example", PInt 0)]].
Proof. split; vm_compute; reflexivity. Qed.

(** C6. The matrix of a completed analysis is symmetric, and it has an entry
    for every pair of domain names. *)
Theorem C6_matrix_symmetric {rt : Runtime} (get_keywords : string → list item)
    competitors my_domain r a b :
  content_gap_analysis get_keywords competitors my_domain = Ok (Some r) →
  common_keywords_matrix r !! (a, b) = common_keywords_matrix r !! (b, a) ∧
  (a ∈ my_domain :: competitors → b ∈ my_domain :: competitors →
   is_Some (common_keywords_matrix r !! (a, b))).
Proof.
  intros (primary & st & _ & _ & _ & Hm & _)%content_gap_analysis_inv. split.
  - destruct (decide (a ∈ my_domain :: competitors)) as [Ha|Ha];
      [destruct (decide (b ∈ my_domain :: competitors)) as [Hb|Hb]|].
    + destruct (matrix_loop_lookup _ _ _ Hm a b Ha Hb) as (n & Hn & ->).
      destruct (matrix_loop_lookup _ _ _ Hm b a Hb Ha) as (n' & Hn' & ->).
      f_equal. by eapply common_count_sym.
    + rewrite !(matrix_loop_outside _ _ _ Hm); auto.
    + rewrite !(matrix_loop_outside _ _ _ Hm); auto.
  - intros Ha Hb. destruct (matrix_loop_lookup _ _ _ Hm a b Ha Hb) as (n & _ & ->).
    by eexists.
Qed.

Lemma C6_matrix_symmetric_witness :
  common_keywords_matrix scenario_result !! ("shop.example", "rival.example")
  = common_keywords_matrix scenario_result !! ("rival.example", "shop.example") ∧
  ("shop.example" ∈ "shop.example" :: ["rival.example"] →
   "rival.example" ∈ "shop.example" :: ["rival.example"] →
   is_Some (common_keywords_matrix scenario_result !! ("shop.example", "rival.example"))).
Proof.
  apply (C6_matrix_symmetric scenario ["rival.example"] "shop.example").
  vm_compute. reflexivity.
Defined.

(** C7. The diagonal entry of a domain name is the number of records of its
    dataset, repeated keywords included. *)
Theorem C7_diagonal {rt : Runtime} (get_keywords : string → list item)
    competitors my_domain r a :
  content_gap_analysis get_keywords competitors my_domain = Ok (Some r) →
  a ∈ my_domain :: competitors →
  ∃ dsa,
    dataset get_keywords competitors my_domain a = Ok dsa ∧
    common_keywords_matrix r !! (a, a) = Some (length dsa).
Proof.
  intros Hrun Ha.
  destruct (matrix_entry _ _ _ r a a Hrun Ha Ha) as (dsa & dsb & Hdsa & _ & _ & _ & Hm).
  exists dsa. rewrite decide_True in Hm by done. done.
Qed.

Lemma C7_diagonal_witness :
  ∃ dsa,
    dataset scenario ["rival.example"] "shop.example" "shop.example" = Ok dsa ∧
    common_keywords_matrix scenario_result !! ("shop.example", "shop.example")
    = Some (length dsa).
Proof.
  apply (C7_diagonal scenario ["rival.example"] "shop.example").
  - vm_compute. reflexivity.
  - left.
Defined.

(** The diagonal of the scenario counts the three primary records, though
    they hold two distinct keywords. *)
Example scenario_diagonal :
  common_keywords_matrix scenario_result !! ("shop.example", "shop.example") = Some 3 ∧
  size (keyword_set (rows_of (dataset scenario ["rival.example"] "shop.example"
                                      "shop.example"))) = 2.
Proof. split; vm_compute; reflexivity. Qed.

(** C8 (as the claim states it). The item of the response contract has its
    backlink rank, 7, at the top level; the record reads 0 for the domain,
    because the source looks for [avg_backlinks_info] inside
    [keyword_data]. *)
Lemma C8_top_level_rank_not_read :
  dict_get "avg_backlinks_info" contract_item = Some (PDict [("rank", PInt 7)]) ∧
  extract_keyword_info [contract_item] ["shop.example"] = Ok contract_rows ∧
  ∃ row, contract_rows !! 0%nat = Some row ∧
         dict_get "shop.example" (Position row) = Some (PInt 0) ∧
         dict_get "shop.example" (Position row) ≠ Some (PInt 7).
Proof.
  split_and!; [vm_compute; reflexivity..|].
  eexists. split_and!; [vm_compute; reflexivity..|]. vm_compute. discriminate.
Qed.

(** C8 (amended). For an item whose [keyword_data] holds
    [avg_backlinks_info] with a rank and whose [ranked_serp_element], at the
    top level, holds [serp_item] with an etv, the record has, for every
    domain of the context, that rank as position and that etv as traffic. *)
Theorem C8_position_traffic (df : list item) (domain_list : list string) rows
    i it kd abi rank rse si etv d :
  extract_keyword_info df domain_list = Ok rows →
  df !! i = Some it →
  dict_get "keyword_data" it = Some (PDict kd) →
  dict_get "avg_backlinks_info" kd = Some (PDict abi) →
  dict_get "rank" abi = Some rank →
  dict_get "ranked_serp_element" it = Some (PDict rse) →
  dict_get "serp_item" rse = Some (PDict si) →
  dict_get "etv" si = Some etv →
  d ∈ domain_list →
  ∃ row, rows !! i = Some row ∧
         dict_get d (Position row) = Some rank ∧
         dict_get d (Traffic row) = Some etv.
Proof.
  intros Hrows Hit Hkd Habi Hrank Hrse Hsi Hetv Hd.
  assert (df_empty df = false) as Hne.
  { eapply df_empty_lookup; [done|]. intros ->. done. }
  apply extract_keyword_info_rows in Hrows; [|done].
  destruct (Forall2_lookup_l _ _ _ _ _ Hrows Hit) as (row & Hrow & Hnorm).
  exists row. split; [done|].
  destruct (normalize_by_domain _ _ _ d Hnorm Hd) as (pos & tr & Hpos & Htr & -> & ->).
  rewrite Hkd in Hpos. rewrite Hrse in Htr.
  unfold position_of in Hpos. unfold traffic_of in Htr.
  cbn [default from_option id isinstance_dict py_get fmap result_fmap] in Hpos, Htr.
  rewrite Habi in Hpos. rewrite Hsi in Htr.
  cbn [default from_option id py_get truthy mbind result_bind] in Hpos, Htr.
  destruct abi as [|e abi]; [done|]. destruct si as [|e' si]; [done|].
  cbn [default from_option id py_get truthy mbind result_bind] in Hpos, Htr.
  rewrite Hrank in Hpos. rewrite Hetv in Htr. simpl in Hpos, Htr.
  by injection Hpos as <-; injection Htr as <-.
Qed.

Lemma C8_position_traffic_witness :
  ∃ row, provider_rows !! 0%nat = Some row ∧
         dict_get "rival.example" (Position row) = Some (PInt 7) ∧
         dict_get "rival.example" (Traffic row) = Some (PInt 3).
Proof.
  apply (C8_position_traffic [provider_item] ["shop.example"; "rival.example"]
           provider_rows 0 provider_item
           [("keyword", PStr "running shoes");
            ("avg_backlinks_info", PDict [("rank", PInt 7)])]
           [("rank", PInt 7)] (PInt 7)
           [("serp_item", PDict [("etv", PInt 3)])] [("etv", PInt 3)] (PInt 3)
           "rival.example").
  - vm_compute. reflexivity.
  - reflexivity.
  - vm_compute. reflexivity.
  - vm_compute. reflexivity.
  - vm_compute. reflexivity.
  - vm_compute. reflexivity.
  - vm_compute. reflexivity.
  - vm_compute. reflexivity.
  - right. left.
Defined.

(** C9. In a completed analysis [all_keywords_df] is the concatenation of
    the datasets of the domains, the primary domain first and then the
    competitors with data in their input order, and [common_keywords_df] is
    the concatenation of the common-keyword subsets of the competitors with
    data in their input order.  A name given twice counts once, at its first
    place ([insertion_order]). *)
Theorem C9_concatenation {rt : Runtime} (get_keywords : string → list item)
    competitors my_domain r :
  content_gap_analysis get_keywords competitors my_domain = Ok (Some r) →
  ∃ primary dss css,
    primary_dataset get_keywords my_domain = Ok primary ∧
    mapM (dataset get_keywords competitors my_domain)
         (insertion_order (my_domain :: with_data get_keywords competitors)) = Ok dss ∧
    all_keywords_df r = mjoin dss ∧
    mapM (competitor_dataset get_keywords competitors)
         (insertion_order (with_data get_keywords competitors)) = Ok css ∧
    common_keywords_df r = mjoin (isin_filter primary <$> css).
Proof. apply analysis_concat. Qed.

Lemma C9_concatenation_witness :
  ∃ primary dss css,
    primary_dataset scenario "shop.example" = Ok primary ∧
    mapM (dataset scenario ["rival.example"] "shop.example")
         (insertion_order ("shop.example" :: with_data scenario ["rival.example"]))
    = Ok dss ∧
    all_keywords_df scenario_result = mjoin dss ∧
    mapM (competitor_dataset scenario ["rival.example"])
         (insertion_order (with_data scenario ["rival.example"])) = Ok css ∧
    common_keywords_df scenario_result = mjoin (isin_filter primary <$> css).
Proof.
  apply (C9_concatenation scenario ["rival.example"] "shop.example").
  vm_compute. reflexivity.
Defined.

(** With distinct domain names the order is the input order itself. *)
Lemma concatenation_distinct {rt : Runtime} (get_keywords : string → list item)
    competitors my_domain r :
  content_gap_analysis get_keywords competitors my_domain = Ok (Some r) →
  NoDup (my_domain :: competitors) →
  ∃ primary css,
    primary_dataset get_keywords my_domain = Ok primary ∧
    mapM (competitor_dataset get_keywords competitors)
         (with_data get_keywords competitors) = Ok css ∧
    all_keywords_df r = primary ++ mjoin css ∧
    common_keywords_df r = mjoin (isin_filter primary <$> css).
Proof.
  intros Hrun Hnd.
  destruct (analysis_concat _ _ _ _ Hrun)
    as (primary & dss & css & Hprimary & Hdss & Hall & Hcss & Hcommon).
  assert (NoDup (my_domain :: with_data get_keywords competitors)) as Hnd'.
  { apply NoDup_cons in Hnd as [Hmy Hnd]. apply NoDup_cons. split.
    - unfold with_data. rewrite list_elem_of_filter. tauto.
    - by apply NoDup_filter. }
  rewrite insertion_order_distinct in Hdss by done.
  rewrite insertion_order_distinct in Hcss by (by apply NoDup_cons in Hnd' as [_ ?]).
  exists primary, css. split_and!; try done.
  rewrite Hall. apply mapM_Ok in Hdss, Hcss.
  apply Forall2_cons_inv_l in Hdss as (f & dss' & Hf & Hdss' & ->).
  unfold dataset in Hf. rewrite decide_False in Hf by (by apply NoDup_cons in Hnd as [? _]).
  assert (f = primary) as -> by congruence. simpl. f_equal. f_equal.
  assert (Forall (λ c, c ∈ competitors) (with_data get_keywords competitors)) as Hin.
  { apply Forall_forall. intros c Hc. unfold with_data in Hc.
    by apply list_elem_of_filter in Hc as [_ ?]. }
  clear -Hdss' Hcss Hin. revert dss' Hdss'.
  induction Hcss as [|c f cs css Hc Hcs IH]; intros dss' Hdss'.
  - by apply Forall2_nil_inv_l in Hdss'.
  - apply Forall2_cons_inv_l in Hdss' as (f' & dss'' & Hf' & Hdss'' & ->).
    apply Forall_cons in Hin as [Hcin Hin].
    f_equal; [|by apply IH].
    unfold dataset in Hf'. rewrite decide_True in Hf' by done. congruence.
Qed.

(** C10. In a completed analysis, two distinct domains that each have an
    item without an extractable keyword both carry the keyword ["n/a"] in
    the records of these items, so ["n/a"] is in the intersection of their
    keyword sets and counts in their matrix entry; and a primary record of
    such an item is in the common-keyword subset of every competitor that
    has such an item too. *)
Theorem C10_missing_keyword_shared {rt : Runtime} (get_keywords : string → list item)
    competitors my_domain r :
  content_gap_analysis get_keywords competitors my_domain = Ok (Some r) →
  (∀ a b (ia : nat) ita (ib : nat) itb,
     a ∈ my_domain :: competitors → b ∈ my_domain :: competitors → a ≠ b →
     get_keywords a !! ia = Some ita → lacks_keyword ita →
     get_keywords b !! ib = Some itb → lacks_keyword itb →
     ∃ dsa dsb ra rb n,
       dataset get_keywords competitors my_domain a = Ok dsa ∧
       dataset get_keywords competitors my_domain b = Ok dsb ∧
       dsa !! ia = Some ra ∧ keyword ra = PStr "n/a" ∧
       dsb !! ib = Some rb ∧ keyword rb = PStr "n/a" ∧
       PStr "n/a" ∈ keyword_set dsa ∩ keyword_set dsb ∧
       common_keywords_matrix r !! (a, b) = Some n ∧ (1 ≤ n)%nat) ∧
  (∃ primary st,
     primary_dataset get_keywords my_domain = Ok primary ∧
     competitor_loop get_keywords competitors my_domain primary = Ok st ∧
     ∀ c (i : nat) it (ic : nat) itc,
       c ∈ competitors →
       get_keywords my_domain !! i = Some it → lacks_keyword it →
       get_keywords c !! ic = Some itc → lacks_keyword itc →
       ∃ x sub,
         primary !! i = Some x ∧ keyword x = PStr "n/a" ∧
         dict_get c st.2 = Some sub ∧ x ∈ sub).
Proof.
  intros Hrun. split.
  - intros a b ia ita ib itb Ha Hb Hne Hita Hla Hitb Hlb.
    destruct (matrix_entry _ _ _ r a b Hrun Ha Hb)
      as (dsa & dsb & Hdsa & Hdsb & Hea & Heb & Hm).
    rewrite decide_False in Hm by done.
    destruct (dataset_rows _ _ _ a dsa Ha Hdsa Hea) as (dla & Hra).
    destruct (dataset_rows _ _ _ b dsb Hb Hdsb Heb) as (dlb & Hrb).
    destruct (lacking_row _ _ _ _ _ Hra Hita Hla) as (ra & Hia & Hina & Hka).
    destruct (lacking_row _ _ _ _ _ Hrb Hitb Hlb) as (rb & Hib & Hinb & Hkb).
    assert (PStr "n/a" ∈ keyword_set dsa ∩ keyword_set dsb) as Hshared.
    { apply elem_of_intersection. split; apply elem_of_keyword_set; eauto. }
    exists dsa, dsb, ra, rb, (size (keyword_set dsa ∩ keyword_set dsb)).
    split_and!; try done.
    assert (size (keyword_set dsa ∩ keyword_set dsb) ≠ 0); [|lia].
    apply size_non_empty_iff. intros Hempty. by rewrite Hempty in Hshared.
  - destruct (content_gap_analysis_inv _ _ _ _ Hrun)
      as (primary & st & Hmy & Hprimary & Hst & Hm & _).
    exists primary, st. split_and!; [done..|].
    intros c i it ic itc Hc Hit Hl Hitc Hlc.
    destruct (all_keywords_dataset _ _ _ _ _ _ c Hmy Hprimary Hst Hm)
      as (_ & _ & _ & Hec); [by right|].
    pose proof (normalized_rows _ _ _ Hprimary Hmy) as Hrp.
    destruct (lacking_row _ _ _ _ _ Hrp Hit Hl) as (x & Hx & Hinx & Hkx).
    unfold competitor_loop in Hst.
    destruct (competitor_fold_get _ _ _ _ _ _ Hst c) as [Hwd _].
    destruct Hwd as (cds & Hcds & _ & Hsub).
    { unfold with_data. by apply list_elem_of_filter. }
    pose proof (normalized_rows _ _ _ Hcds Hec) as Hrc.
    destruct (lacking_row _ _ _ _ _ Hrc Hitc Hlc) as (y & Hy & Hiny & Hky).
    exists x, (isin_filter primary cds). split_and!; [done..|].
    unfold isin_filter. apply list_elem_of_filter. split; [|done].
    rewrite Hkx, <-Hky. apply list_elem_of_fmap. by exists y.
Qed.

Lemma C10_missing_keyword_shared_witness :
  (∀ a b (ia : nat) ita (ib : nat) itb,
     a ∈ "shop.example" :: ["rival.example"] →
     b ∈ "shop.example" :: ["rival.example"] → a ≠ b →
     scenario_na a !! ia = Some ita → lacks_keyword ita →
     scenario_na b !! ib = Some itb → lacks_keyword itb →
     ∃ dsa dsb ra rb n,
       dataset scenario_na ["rival.example"] "shop.example" a = Ok dsa ∧
       dataset scenario_na ["rival.example"] "shop.example" b = Ok dsb ∧
       dsa !! ia = Some ra ∧ keyword ra = PStr "n/a" ∧
       dsb !! ib = Some rb ∧ keyword rb = PStr "n/a" ∧
       PStr "n/a" ∈ keyword_set dsa ∩ keyword_set dsb ∧
       common_keywords_matrix scenario_na_result !! (a, b) = Some n ∧ (1 ≤ n)%nat) ∧
  (∃ primary st,
     primary_dataset scenario_na "shop.example" = Ok primary ∧
     competitor_loop scenario_na ["rival.example"] "shop.example" primary = Ok st ∧
     ∀ c (i : nat) it (ic : nat) itc,
       c ∈ ["rival.example"] →
       scenario_na "shop.example" !! i = Some it → lacks_keyword it →
       scenario_na c !! ic = Some itc → lacks_keyword itc →
       ∃ x sub,
         primary !! i = Some x ∧ keyword x = PStr "n/a" ∧
         dict_get c st.2 = Some sub ∧ x ∈ sub).
Proof.
  apply (C10_missing_keyword_shared scenario_na ["rival.example"] "shop.example").
  vm_compute. reflexivity.
Defined.

(** The run with an item without keyword on each side: the two domains
    share exactly ["n/a"], and the primary record that carries it is the
    common-keyword subset. *)
Example scenario_na_shared :
  common_keywords_matrix scenario_na_result !! ("shop.example", "rival.example")
  = Some 1 ∧
  keyword <$> common_keywords_df scenario_na_result = [PStr "n/a"].
Proof. split; vm_compute; reflexivity. Qed.

(** * Further properties *)

(** ** Keyword normalisation *)

Lemma ascii_lower_idem (c : ascii) : ascii_lower (ascii_lower c) = ascii_lower c.
Proof. destruct c as [[] [] [] [] [] [] [] []]; reflexivity. Qed.

Lemma isspace_ascii_lower (c : ascii) : isspace (ascii_lower c) = isspace c.
Proof. destruct c as [[] [] [] [] [] [] [] []]; reflexivity. Qed.

Lemma lower_idem (s : string) : lower_ascii (lower_ascii s) = lower_ascii s.
Proof. induction s as [|c s IH]; simpl; [done|]. by rewrite ascii_lower_idem, IH. Qed.

Lemma lower_lstrip (s : string) : lower_ascii (lstrip_ascii s) = lstrip_ascii (lower_ascii s).
Proof.
  induction s as [|c s IH]; simpl; [done|]. rewrite isspace_ascii_lower.
  by destruct (isspace c).
Qed.

Lemma lower_rstrip (s : string) : lower_ascii (rstrip_ascii s) = rstrip_ascii (lower_ascii s).
Proof.
  induction s as [|c s IH]; simpl; [done|]. rewrite <-IH, isspace_ascii_lower.
  destruct (rstrip_ascii s) as [|d r]; simpl; [by destruct (isspace c)|done].
Qed.

Lemma lower_strip (s : string) : lower_ascii (strip_ascii s) = strip_ascii (lower_ascii s).
Proof. unfold strip_ascii. by rewrite lower_rstrip, lower_lstrip. Qed.

Lemma rstrip_idem (s : string) : rstrip_ascii (rstrip_ascii s) = rstrip_ascii s.
Proof.
  induction s as [|c s IH]; simpl; [done|].
  destruct (rstrip_ascii s) as [|d r] eqn:Hr.
  - destruct (isspace c) eqn:Hc; simpl; [done|]. by rewrite Hc.
  - change (rstrip_ascii (String c (String d r))) with
      (match rstrip_ascii (String d r) with
       | EmptyString => if isspace c then EmptyString else String c EmptyString
       | r' => String c r'
       end).
    by rewrite IH.
Qed.

(** A string that does not start with white space keeps its first character
    under [rstrip_ascii]. *)
Lemma rstrip_head (c : ascii) (s : string) :
  isspace c = false → rstrip_ascii (String c s) = String c (rstrip_ascii s).
Proof. intros Hc. simpl. rewrite Hc. by destruct (rstrip_ascii s). Qed.

Lemma lstrip_head (s : string) :
  lstrip_ascii s = EmptyString ∨ ∃ c t, lstrip_ascii s = String c t ∧ isspace c = false.
Proof.
  induction s as [|c s IH]; simpl; [by left|].
  destruct (isspace c) eqn:Hc; [done|]. right. by exists c, s.
Qed.

Lemma strip_idem (s : string) : strip_ascii (strip_ascii s) = strip_ascii s.
Proof.
  unfold strip_ascii. destruct (lstrip_head s) as [->|(c & t & -> & Hc)]; [done|].
  rewrite rstrip_head by done. simpl lstrip_ascii. rewrite Hc.
  rewrite <-rstrip_head by done. apply rstrip_idem.
Qed.

(** ASCII text stays ASCII text. *)
Lemma ascii_lower_below (c : ascii) :
  (nat_of_ascii (ascii_lower c) <? 128)%nat = (nat_of_ascii c <? 128)%nat.
Proof. destruct c as [[] [] [] [] [] [] [] []]; reflexivity. Qed.

Lemma isspace_below (c : ascii) : isspace c = true → (nat_of_ascii c <? 128)%nat = true.
Proof. destruct c as [[] [] [] [] [] [] [] []]; done. Qed.

Lemma is_ascii_lower_ascii (s : string) : is_ascii (lower_ascii s) = is_ascii s.
Proof. induction s as [|c s IH]; simpl; [done|]. by rewrite ascii_lower_below, IH. Qed.

Lemma is_ascii_lstrip (s : string) : is_ascii s = true → is_ascii (lstrip_ascii s) = true.
Proof.
  induction s as [|c s IH]; simpl; [done|]. intros [Hc Hs]%andb_true_iff.
  destruct (isspace c); [by apply IH|]. simpl. by rewrite Hc, Hs.
Qed.

Lemma is_ascii_rstrip (s : string) : is_ascii s = true → is_ascii (rstrip_ascii s) = true.
Proof.
  induction s as [|c s IH]; simpl; [done|]. intros [Hc Hs]%andb_true_iff.
  specialize (IH Hs). destruct (rstrip_ascii s) as [|d r].
  - destruct (isspace c); [done|]. simpl. by rewrite Hc.
  - change (is_ascii (String c (String d r))) with
      ((nat_of_ascii c <? 128)%nat && is_ascii (String d r)).
    by rewrite Hc, IH.
Qed.

Lemma is_ascii_strip (s : string) : is_ascii s = true → is_ascii (strip_ascii s) = true.
Proof. intros Hs. unfold strip_ascii. by apply is_ascii_rstrip, is_ascii_lstrip. Qed.

Lemma is_ascii_app (s t : string) :
  is_ascii (String.append s t) = is_ascii s && is_ascii t.
Proof. induction s as [|c s IH]; simpl; [done|]. by rewrite IH, andb_assoc. Qed.

Lemma all_space_is_ascii (s : string) : all_space s = true → is_ascii s = true.
Proof.
  induction s as [|c s IH]; simpl; [done|]. intros [Hc Hs]%andb_true_iff.
  by rewrite (isspace_below _ Hc), IH.
Qed.

(** On ASCII text the normalisation is computed, whatever the runtime. *)
Lemma str_lower_strip_ascii {rt : Runtime} (s : string) :
  is_ascii s = true →
  str_lower_strip (PStr s) = PStr (strip_ascii (lower_ascii s)).
Proof.
  intros Hs. unfold str_lower_strip, str_method, lower, strip.
  by rewrite Hs, is_ascii_lower_ascii, Hs.
Qed.

Lemma str_lower_strip_ascii_cell {rt : Runtime} (x : pyval) :
  ascii_cell x = true → ascii_cell (str_lower_strip x) = true.
Proof.
  destruct x; try done. cbn [ascii_cell]. intros Hs.
  rewrite str_lower_strip_ascii by done.
  cbn [ascii_cell]. apply is_ascii_strip. by rewrite is_ascii_lower_ascii.
Qed.

(** X1. Normalising a keyword cell twice is normalising it once, for every
    cell that is not a string with a character outside ASCII. *)
Theorem str_lower_strip_idem {rt : Runtime} (x : pyval) :
  ascii_cell x = true →
  str_lower_strip (str_lower_strip x) = str_lower_strip x.
Proof.
  destruct x; try done. cbn [ascii_cell]. intros Hs.
  rewrite (str_lower_strip_ascii s) by done.
  rewrite str_lower_strip_ascii.
  - by rewrite lower_strip, lower_idem, strip_idem.
  - apply is_ascii_strip. by rewrite is_ascii_lower_ascii.
Qed.

Lemma str_lower_strip_idem_witness :
  str_lower_strip (str_lower_strip (PStr " Running Shoes "))
  = str_lower_strip (PStr " Running Shoes ").
Proof. apply (str_lower_strip_idem (PStr " Running Shoes ")). reflexivity. Defined.

Lemma ascii_lower_not_upper (c : ascii) : is_upper (ascii_lower c) = false.
Proof. destruct c as [[] [] [] [] [] [] [] []]; reflexivity. Qed.

Lemma chars_lower (s : string) : chars (lower_ascii s) = ascii_lower <$> chars s.
Proof. induction s as [|c s IH]; simpl; [done|]. by rewrite IH. Qed.

Lemma rstrip_last (s : string) c : last_char (rstrip_ascii s) = Some c → isspace c = false.
Proof.
  induction s as [|d s IH]; simpl; [done|].
  destruct (rstrip_ascii s) as [|e r] eqn:Hr.
  - destruct (isspace d) eqn:Hd; simpl; [done|]. by intros [= <-].
  - simpl. intros Hl. apply IH. by destruct r.
Qed.

Lemma strip_first (s : string) c : first_char (strip_ascii s) = Some c → isspace c = false.
Proof.
  unfold strip_ascii. destruct (lstrip_head s) as [->|(d & t & -> & Hd)]; [done|].
  rewrite rstrip_head by done. simpl. by intros [= <-].
Qed.

(** X2. The normalised form of an ASCII keyword has no upper-case letter and
    neither starts nor ends with white space. *)
Theorem normalised_string_shape {rt : Runtime} (s : string) :
  is_ascii s = true →
  ∃ t, str_lower_strip (PStr s) = PStr t ∧
       Forall (λ c, is_upper c = false) (chars t) ∧
       (∀ c, first_char t = Some c → isspace c = false) ∧
       (∀ c, last_char t = Some c → isspace c = false).
Proof.
  intros Hs. exists (strip_ascii (lower_ascii s)).
  split; [by apply str_lower_strip_ascii|]. split_and!.
  - rewrite <-lower_strip, chars_lower. apply Forall_fmap, Forall_true.
    intros c. apply ascii_lower_not_upper.
  - apply strip_first.
  - intros c. unfold strip_ascii. apply rstrip_last.
Qed.

Lemma normalised_string_shape_witness :
  ∃ t, str_lower_strip (PStr " Running Shoes ") = PStr t ∧
       Forall (λ c, is_upper c = false) (chars t) ∧
       (∀ c, first_char t = Some c → isspace c = false) ∧
       (∀ c, last_char t = Some c → isspace c = false).
Proof. apply (normalised_string_shape " Running Shoes "). reflexivity. Defined.

(** ** When the extraction returns a frame *)

Lemma df_getitem_has_column (df : list item) c :
  has_column c df = true →
  df_getitem df c = Ok ((λ it, default PNaN (dict_get c it)) <$> df).
Proof. unfold df_getitem, has_column. by intros ->. Qed.

Lemma df_getitem_Ok (df : list item) c col :
  df_getitem df c = Ok col → has_column c df = true.
Proof. unfold df_getitem, has_column. by case_match. Qed.

(** The per-domain part of a record: the same two values for every domain
    of the context. *)
Lemma mapM_domains_Ok {A B} (P : result A) (T : result B) (dl : list string) cols p t :
  P = Ok p → T = Ok t →
  mapM (λ domain : string, pos ← P; tr ← T; Ok (domain, pos, tr)) dl = Ok cols ↔
  cols = (λ d, (d, p, t)) <$> dl.
Proof.
  intros -> ->. simpl.
  assert (mapM (λ domain : string, Ok (domain, p, t)) dl
          = Ok ((λ d, (d, p, t)) <$> dl)) as ->.
  { induction dl as [|d dl IH]; simpl; [done|]. by rewrite IH. }
  split; [by intros [= <-]|by intros ->].
Qed.

Lemma mapM_domains_inv {A B} (P : result A) (T : result B) (dl : list string) cols :
  dl ≠ [] →
  mapM (λ domain : string, pos ← P; tr ← T; Ok (domain, pos, tr)) dl = Ok cols →
  ∃ p t, P = Ok p ∧ T = Ok t ∧ cols = (λ d, (d, p, t)) <$> dl.
Proof.
  intros Hdl Hm. destruct dl as [|d dl]; [done|].
  pose proof Hm as Hm'. simpl in Hm'.
  apply bind_Ok in Hm' as (c & Hc & _). apply bind_Ok in Hc as (p & Hp & Hc).
  apply bind_Ok in Hc as (t & Ht & _). exists p, t. split_and!; [done..|].
  by apply (mapM_domains_Ok P T).
Qed.

(** The columns of a record, read back from the lambdas. *)
Lemma normalize_Ok (dl : list string) (it : item) r :
  normalize dl it = Ok r ↔
  let x := default PNaN (dict_get "keyword_data" it) in
  let y := default PNaN (dict_get "ranked_serp_element" it) in
  keyword_of x = Ok (keyword r) ∧
  search_volume_of x = Ok (search_volume r) ∧
  keyword_difficulty_of x = Ok (Keyword_Difficulty r) ∧
  cpc_of x = Ok (CPC r) ∧
  last_updated_time_of x = Ok (last_updated_time r) ∧
  ∃ cols, mapM (λ domain : string, pos ← position_of x; tr ← traffic_of y;
                                   Ok (domain, pos, tr)) dl = Ok cols ∧
          Position r = (λ c : string * pyval * pyval, (c.1.1, c.1.2)) <$> cols ∧
          Traffic r = (λ c : string * pyval * pyval, (c.1.1, c.2)) <$> cols.
Proof.
  unfold normalize. cbv zeta. split.
  - intros (kw & Hkw & H)%bind_Ok. apply bind_Ok in H as (sv & Hsv & H).
    apply bind_Ok in H as (kd & Hkd & H). apply bind_Ok in H as (cpc & Hcpc & H).
    apply bind_Ok in H as (lut & Hlut & H). apply bind_Ok in H as (cols & Hcols & H).
    injection H as <-. simpl. split_and!; try done. by exists cols.
  - intros (-> & -> & -> & -> & -> & cols & -> & HP & HT). simpl.
    destruct r; simpl in *. by rewrite HP, HT.
Qed.

Lemma normalize_domains (dl : list string) (it : item) r :
  normalize dl it = Ok r →
  Position r = (λ d, (d, first_value (Position r))) <$> dl ∧
  Traffic r = (λ d, (d, first_value (Traffic r))) <$> dl ∧
  (dl ≠ [] →
   position_of (default PNaN (dict_get "keyword_data" it))
   = Ok (first_value (Position r)) ∧
   traffic_of (default PNaN (dict_get "ranked_serp_element" it))
   = Ok (first_value (Traffic r))).
Proof.
  intros (_ & _ & _ & _ & _ & cols & Hcols & HP & HT)%normalize_Ok.
  destruct dl as [|d dl].
  - injection Hcols as <-. by rewrite HP, HT.
  - apply mapM_domains_inv in Hcols as (p & t & Hp & Ht & ->); [|done].
    rewrite HP, HT, <-!list_fmap_compose. by split_and!.
Qed.

Lemma apply_column {A} (f : pyval → result pyval) (g : A → pyval)
    (cell : item → pyval) (df : list item) (rows : list A) :
  Forall2 (λ it r, f (cell it) = Ok (g r)) df rows →
  apply f (cell <$> df) = Ok (g <$> rows).
Proof. intros HF. unfold apply. by apply mapM_Ok, Forall2_fmap. Qed.

(** Where the frame has the columns and every item has a record, the
    column-wise extraction returns these records. *)
Lemma extract_keyword_info_complete (df : list item) (dl : list string) rows :
  df_empty df = false →
  has_column "keyword_data" df = true →
  (dl ≠ [] → has_column "ranked_serp_element" df = true) →
  Forall2 (λ it r, normalize dl it = Ok r) df rows →
  extract_keyword_info df dl = Ok rows.
Proof.
  intros Hne Hkd Hrse Hrows. unfold extract_keyword_info. rewrite Hne.
  rewrite !(df_getitem_has_column _ _ Hkd).
  cbn [mbind result_bind].
  rewrite (apply_column keyword_of keyword _ df rows).
  2:{ eapply Forall2_impl; [done|]. by intros it r (? & _)%normalize_Ok. }
  rewrite (apply_column search_volume_of search_volume _ df rows).
  2:{ eapply Forall2_impl; [done|]. by intros it r (_ & ? & _)%normalize_Ok. }
  rewrite (apply_column keyword_difficulty_of Keyword_Difficulty _ df rows).
  2:{ eapply Forall2_impl; [done|]. by intros it r (_ & _ & ? & _)%normalize_Ok. }
  rewrite (apply_column cpc_of CPC _ df rows).
  2:{ eapply Forall2_impl; [done|]. by intros it r (_ & _ & _ & ? & _)%normalize_Ok. }
  rewrite (apply_column last_updated_time_of last_updated_time _ df rows).
  2:{ eapply Forall2_impl; [done|]. by intros it r (_ & _ & _ & _ & ? & _)%normalize_Ok. }
  cbn [mbind result_bind].
  assert (mapM (λ domain : string,
            pos ← apply position_of
                    ((λ it, default PNaN (dict_get "keyword_data" it)) <$> df);
            tr ← df_getitem df "ranked_serp_element" ≫= apply traffic_of;
            Ok (domain, pos, tr)) dl
          = Ok ((λ d, (d, (λ r, first_value (Position r)) <$> rows,
                          (λ r, first_value (Traffic r)) <$> rows)) <$> dl)) as ->.
  { destruct (decide (dl = [])) as [->|Hdl]; [done|].
    eapply mapM_domains_Ok; [| |done].
    - apply apply_column. eapply Forall2_impl; [done|].
      intros it r Hr. apply (normalize_domains _ _ _ Hr). done.
    - rewrite (df_getitem_has_column _ _ (Hrse Hdl)). cbn [mbind result_bind].
      apply apply_column. eapply Forall2_impl; [done|].
      intros it r Hr. apply (normalize_domains _ _ _ Hr). done. }
  cbn [mbind result_bind]. f_equal.
  apply list_eq. intros i. rewrite list_lookup_fmap.
  destruct (decide (i < length df)) as [Hi|Hi].
  - rewrite lookup_seq_lt by done. simpl.
    destruct (lookup_lt_is_Some_2 df i Hi) as [it Hit].
    destruct (Forall2_lookup_l _ _ _ _ _ Hrows Hit) as (r & Hr & Hnorm).
    rewrite Hr. f_equal. unfold row_at.
    rewrite !(list_lookup_total_correct _ i _ (eq_trans (list_lookup_fmap _ _ _)
                                                 (f_equal (fmap _) Hr))).
    destruct (normalize_domains _ _ _ Hnorm) as (HP & HT & _).
    rewrite <-!list_fmap_compose.
    destruct r as [kw sv kd cpc lut P T]. simpl in *. f_equal.
    + etrans; [|symmetry; exact HP]. apply list_fmap_ext. intros _ d _. simpl.
      f_equal. apply list_lookup_total_correct. by rewrite list_lookup_fmap, Hr.
    + etrans; [|symmetry; exact HT]. apply list_fmap_ext. intros _ d _. simpl.
      f_equal. apply list_lookup_total_correct. by rewrite list_lookup_fmap, Hr.
  - rewrite lookup_seq_ge by lia. simpl. symmetry. apply lookup_ge_None.
    rewrite <-(Forall2_length _ _ _ Hrows). lia.
Qed.

Lemma keyword_of_returns (x : pyval) : returns (keyword_of x).
Proof. unfold keyword_of. destruct x; simpl; by eexists. Qed.

Lemma not_object_returns (x : pyval) :
  isinstance_dict x = false →
  returns (search_volume_of x) ∧ returns (keyword_difficulty_of x) ∧
  returns (cpc_of x) ∧ returns (last_updated_time_of x) ∧
  returns (position_of x) ∧ returns (traffic_of x).
Proof.
  intros Hx.
  unfold search_volume_of, keyword_difficulty_of, cpc_of, last_updated_time_of,
    position_of, traffic_of.
  rewrite Hx. simpl. split_and!; by eexists.
Qed.

Lemma keyword_info_returns (kd : dict pyval) :
  absent_or_object (dict_get "keyword_info" kd) = true ↔
  returns (search_volume_of (PDict kd)) ∧ returns (cpc_of (PDict kd)) ∧
  returns (last_updated_time_of (PDict kd)).
Proof.
  unfold search_volume_of, cpc_of, last_updated_time_of, returns.
  cbn [isinstance_dict py_get mbind result_bind].
  destruct (dict_get "keyword_info" kd) as [[]|];
    cbn [absent_or_object isinstance_dict default from_option id py_get
         mbind result_bind];
    (split; [|done || by intros ([? [=]] & _)]); try done.
  all: intros _; split_and!; try by eexists.
  all: destruct (negb _); by eexists.
Qed.

Lemma keyword_properties_returns (kd : dict pyval) :
  absent_or_object (dict_get "keyword_properties" kd) = true ↔
  returns (keyword_difficulty_of (PDict kd)).
Proof.
  unfold keyword_difficulty_of, returns.
  cbn [isinstance_dict py_get mbind result_bind].
  destruct (dict_get "keyword_properties" kd) as [[]|];
    cbn [absent_or_object isinstance_dict default from_option id py_get
         mbind result_bind];
    (split; [|done || by intros [? [=]]]); try done.
  all: intros _; by eexists.
Qed.

(** The shape shared by [position_of] and [traffic_of]: the inner object is
    read only where it is true. *)
Lemma guarded_get_returns (o : option pyval) (k : string) :
  falsy_or_object o = true ↔
  returns (c ← Ok (truthy (default PNone o));
           if c : bool
           then v ← Ok (default (PDict []) o); py_get v k (PInt 0)
           else Ok (PInt 0)).
Proof.
  unfold returns. cbn [mbind result_bind].
  destruct o as [v|]; cbn [falsy_or_object default from_option id].
  - destruct v; cbn [truthy isinstance_dict negb orb py_get];
      repeat match goal with |- context [if ?b then _ else _] => destruct b end;
      repeat match goal with |- context [match ?l with [] => _ | _ :: _ => _ end] =>
                               destruct l end;
      cbn [negb orb py_get];
      (split; [|done || by intros [? [=]]]); try done; intros _; by eexists.
  - simpl. split; [intros _; by eexists|done].
Qed.

Lemma position_of_returns (kd : dict pyval) :
  falsy_or_object (dict_get "avg_backlinks_info" kd) = true ↔
  returns (position_of (PDict kd)).
Proof. apply guarded_get_returns. Qed.

Lemma traffic_of_returns (rse : dict pyval) :
  falsy_or_object (dict_get "serp_item" rse) = true ↔
  returns (traffic_of (PDict rse)).
Proof. apply guarded_get_returns. Qed.

Lemma normalize_returns (dl : list string) (it : item) :
  returns (normalize dl it) ↔
  let x := default PNaN (dict_get "keyword_data" it) in
  let y := default PNaN (dict_get "ranked_serp_element" it) in
  returns (search_volume_of x) ∧ returns (keyword_difficulty_of x) ∧
  returns (cpc_of x) ∧ returns (last_updated_time_of x) ∧
  (dl ≠ [] → returns (position_of x) ∧ returns (traffic_of y)).
Proof.
  cbv zeta. split.
  - intros [r Hr]. pose proof (normalize_domains _ _ _ Hr) as (_ & _ & Hdom).
    apply normalize_Ok in Hr as (_ & ? & ? & ? & ? & _).
    split_and!; try by eexists.
    intros Hdl. destruct (Hdom Hdl). split; by eexists.
  - intros ([sv Hsv] & [kd Hkd] & [cpc Hcpc] & [lut Hlut] & Hdom).
    destruct (keyword_of_returns (default PNaN (dict_get "keyword_data" it)))
      as [kw Hkw].
    unfold normalize, returns. rewrite Hkw, Hsv, Hkd, Hcpc, Hlut.
    cbn [mbind result_bind].
    destruct (decide (dl = [])) as [->|Hdl]; [by eexists|].
    destruct (Hdom Hdl) as [[p Hp] [t Ht]].
    rewrite (proj2 (mapM_domains_Ok _ _ dl _ p t Hp Ht) eq_refl). by eexists.
Qed.

Lemma well_formed_returns (dl : list string) (it : item) :
  well_formed it = true → returns (normalize dl it).
Proof.
  unfold well_formed. intros [Hkd Hrse]%andb_true_iff.
  apply normalize_returns. cbv zeta.
  assert (returns (traffic_of (default PNaN (dict_get "ranked_serp_element" it))))
    as Htr.
  { destruct (dict_get "ranked_serp_element" it) as [y|]; simpl.
    - destruct (isinstance_dict y) eqn:Hy.
      + destruct y; try done. by apply traffic_of_returns.
      + by apply not_object_returns.
    - by apply not_object_returns. }
  destruct (dict_get "keyword_data" it) as [x|]; simpl.
  - destruct (isinstance_dict x) eqn:Hx.
    + destruct x; try done.
      apply andb_true_iff in Hkd as [[Hki Hkp]%andb_true_iff Habi].
      apply keyword_info_returns in Hki as (? & ? & ?).
      apply keyword_properties_returns in Hkp.
      apply position_of_returns in Habi. by split_and!.
    + destruct (not_object_returns x Hx) as (? & ? & ? & ? & ? & _). by split_and!.
  - by destruct (not_object_returns PNaN eq_refl) as (? & ? & ? & ? & ? & _).
Qed.

Lemma returns_well_formed (dl : list string) (it : item) :
  dl ≠ [] → returns (normalize dl it) → well_formed it = true.
Proof.
  intros Hdl (Hsv & Hkd & Hcpc & Hlut & Hdom)%normalize_returns.
  destruct (Hdom Hdl) as [Hpos Htr]. unfold well_formed.
  apply andb_true_iff. split.
  - destruct (dict_get "keyword_data" it) as [[]|]; try done. simpl in *.
    rewrite !andb_true_iff. split_and!.
    + by apply keyword_info_returns.
    + by apply keyword_properties_returns.
    + by apply position_of_returns.
  - destruct (dict_get "ranked_serp_element" it) as [[]|]; try done. simpl in *.
    by apply traffic_of_returns.
Qed.

Lemma Forall_returns_Forall2 {A B} (f : A → result B) (l : list A) :
  Forall (λ x, returns (f x)) l → ∃ k, Forall2 (λ x y, f x = Ok y) l k.
Proof.
  induction 1 as [|x l [y Hy] _ [k Hk]].
  - by exists [].
  - exists (y :: k). by constructor.
Qed.

(** X3. The extraction keeps the records: where it returns a frame, the
    frame has one row per item, and no row when the raw frame is empty
    (no item, or only items without any key). *)
Theorem extraction_record_count (df : list item) (dl : list string) rows :
  extract_keyword_info df dl = Ok rows →
  length rows = if df_empty df then 0 else length df.
Proof.
  intros Hrows. destruct (df_empty df) eqn:Hne.
  - unfold extract_keyword_info in Hrows. rewrite Hne in Hrows. by injection Hrows as <-.
  - symmetry. eapply Forall2_length. by apply extract_keyword_info_rows.
Qed.

Lemma extraction_record_count_witness :
  length provider_rows
  = if df_empty [provider_item] then 0 else length [provider_item].
Proof.
  apply (extraction_record_count [provider_item] ["shop.example"; "rival.example"]).
  vm_compute. reflexivity.
Defined.

Lemma extracted_row_keys (df : list item) (dl : list string) rows row :
  extract_keyword_info df dl = Ok rows → row ∈ rows →
  (Position row).*1 = dl ∧ (Traffic row).*1 = dl.
Proof.
  intros Hrows Hrow. destruct (df_empty df) eqn:Hne.
  { unfold extract_keyword_info in Hrows. rewrite Hne in Hrows.
    injection Hrows as <-. by apply elem_of_nil in Hrow. }
  apply extract_keyword_info_rows in Hrows; [|done].
  apply list_elem_of_lookup in Hrow as [i Hi].
  destruct (Forall2_lookup_r _ _ _ _ _ Hrows Hi) as (it & _ & Hnorm).
  destruct (normalize_domains _ _ _ Hnorm) as (-> & -> & _).
  rewrite <-!list_fmap_compose. split; apply list_fmap_id.
Qed.

(** X4. The position and traffic columns of every extracted record are
    keyed by exactly the domains of the list given to the extraction, in its
    order. *)
Theorem extraction_domain_keys (df : list item) (dl : list string) rows row :
  extract_keyword_info df dl = Ok rows → row ∈ rows →
  (Position row).*1 = dl ∧ (Traffic row).*1 = dl.
Proof. apply extracted_row_keys. Qed.

Lemma extraction_domain_keys_witness :
  ∃ row, provider_rows !! 0%nat = Some row ∧
         (Position row).*1 = ["shop.example"; "rival.example"] ∧
         (Traffic row).*1 = ["shop.example"; "rival.example"].
Proof.
  eexists. split; [reflexivity|].
  apply (extraction_domain_keys [provider_item] ["shop.example"; "rival.example"]
           provider_rows).
  - vm_compute. reflexivity.
  - left.
Defined.

Lemma extract_keyword_info_iff (df : list item) (dl : list string) rows :
  df_empty df = false →
  extract_keyword_info df dl = Ok rows ↔
  has_column "keyword_data" df = true ∧
  (dl ≠ [] → has_column "ranked_serp_element" df = true) ∧
  mapM (normalize dl) df = Ok rows.
Proof.
  intros Hne. split.
  - intros Hrows. split_and!.
    + unfold extract_keyword_info in Hrows. rewrite Hne in Hrows.
      apply bind_Ok in Hrows as (kw & Hkw & _).
      apply bind_Ok in Hkw as (col & Hcol & _). by eapply df_getitem_Ok.
    + intros Hdl. unfold extract_keyword_info in Hrows. rewrite Hne in Hrows.
      apply bind_Ok in Hrows as (kw & _ & H). apply bind_Ok in H as (sv & _ & H).
      apply bind_Ok in H as (kd & _ & H). apply bind_Ok in H as (cpc & _ & H).
      apply bind_Ok in H as (lut & _ & H). apply bind_Ok in H as (cols & Hcols & _).
      destruct dl as [|d dl]; [done|]. simpl in Hcols.
      apply bind_Ok in Hcols as (c & Hc & _). apply bind_Ok in Hc as (pos & _ & Hc).
      apply bind_Ok in Hc as (tr & Htr & _).
      apply bind_Ok in Htr as (col & Hcol & _). by eapply df_getitem_Ok.
    + by apply mapM_Ok, extract_keyword_info_rows.
  - intros (Hkd & Hrse & Hrows). apply extract_keyword_info_complete; try done.
    by apply mapM_Ok.
Qed.

(** X5. On a non-empty raw frame the column-wise extraction returns a frame
    exactly when the frame has the [keyword_data] column, has the
    [ranked_serp_element] column unless the domain list is empty, and every
    item has a record; the frame is then the list of these records. *)
Theorem extraction_by_rows (df : list item) (dl : list string) rows :
  df_empty df = false →
  extract_keyword_info df dl = Ok rows ↔
  has_column "keyword_data" df = true ∧
  (dl ≠ [] → has_column "ranked_serp_element" df = true) ∧
  mapM (normalize dl) df = Ok rows.
Proof. apply extract_keyword_info_iff. Qed.

Lemma extraction_by_rows_witness :
  extract_keyword_info [provider_item] ["shop.example"; "rival.example"]
  = Ok provider_rows ↔
  has_column "keyword_data" [provider_item] = true ∧
  (["shop.example"; "rival.example"] ≠ [] →
   has_column "ranked_serp_element" [provider_item] = true) ∧
  mapM (normalize ["shop.example"; "rival.example"]) [provider_item]
  = Ok provider_rows.
Proof.
  apply (extraction_by_rows [provider_item] ["shop.example"; "rival.example"]).
  vm_compute. reflexivity.
Defined.

Lemma extract_keyword_info_returns (df : list item) (dl : list string) :
  df_empty df = false → dl ≠ [] →
  returns (extract_keyword_info df dl) ↔
  has_column "keyword_data" df = true ∧
  has_column "ranked_serp_element" df = true ∧
  Forall (λ it, well_formed it = true) df.
Proof.
  intros Hne Hdl. split.
  - intros [rows (Hkd & Hrse & Hrows)%extract_keyword_info_iff]; [|done].
    split_and!; [done|by apply Hrse|].
    apply mapM_Ok in Hrows. apply Forall_forall. intros it Hit.
    apply list_elem_of_lookup in Hit as [i Hi].
    destruct (Forall2_lookup_l _ _ _ _ _ Hrows Hi) as (r & _ & Hr).
    apply (returns_well_formed dl); [done|]. by exists r.
  - intros (Hkd & Hrse & Hwf).
    destruct (Forall_returns_Forall2 (normalize dl) df) as [rows Hrows].
    { eapply Forall_impl; [done|]. intros it. apply well_formed_returns. }
    exists rows. apply extract_keyword_info_iff; [done|].
    split_and!; [done|done|by apply mapM_Ok].
Qed.

(** X6. With a non-empty domain list, the extraction of a non-empty raw
    frame returns a frame (raises nothing) exactly when the frame has both
    columns and every item is well formed: [keyword_info] and
    [keyword_properties] absent or objects, [avg_backlinks_info] and
    [serp_item] false or objects. *)
Theorem extraction_returns_iff (df : list item) (dl : list string) :
  df_empty df = false → dl ≠ [] →
  returns (extract_keyword_info df dl) ↔
  has_column "keyword_data" df = true ∧
  has_column "ranked_serp_element" df = true ∧
  Forall (λ it, well_formed it = true) df.
Proof. apply extract_keyword_info_returns. Qed.

Lemma extraction_returns_iff_witness :
  returns (extract_keyword_info [provider_item] ["shop.example"]) ↔
  has_column "keyword_data" [provider_item] = true ∧
  has_column "ranked_serp_element" [provider_item] = true ∧
  Forall (λ it, well_formed it = true) [provider_item].
Proof.
  apply (extraction_returns_iff [provider_item] ["shop.example"]).
  - vm_compute. reflexivity.
  - discriminate.
Defined.

(** ** The analysis as a whole *)

Lemma size_keyword_set_le (df : list record) :
  (size (keyword_set df) ≤ length df)%nat.
Proof.
  unfold keyword_set. induction df as [|r df IH].
  - change (size (∅ : gset pyval) ≤ 0)%nat. by rewrite size_empty.
  - rewrite fmap_cons, list_to_set_cons, size_union_alt, size_singleton. simpl.
    assert (size (list_to_set (keyword <$> df) ∖ {[keyword r]} : gset pyval)
            ≤ size (list_to_set (keyword <$> df) : gset pyval))%nat; [|lia].
    apply subseteq_size. by intros x [Hx _]%elem_of_difference.
Qed.

Lemma keyword_set_isin_filter (df other : list record) :
  keyword_set (isin_filter df other) = keyword_set df ∩ keyword_set other.
Proof.
  apply set_eq. intros k. rewrite elem_of_intersection, !elem_of_keyword_set.
  unfold isin_filter. setoid_rewrite list_elem_of_filter.
  setoid_rewrite list_elem_of_fmap. split.
  - intros (r & [(y & Hy & Hin) Hr] & <-). split; [by exists r|]. by exists y.
  - intros [(r & Hr & <-) (y & Hy & Hk)]. exists r. split; [|done].
    split; [|done]. by exists y.
Qed.

(** The keyword column of a dataset does not depend on the domain list it
    was extracted with. *)
Lemma keyword_column_context {rt : Runtime} (df : list item) (dl1 dl2 : list string) f1 f2 :
  Forall2 (λ it r, ∃ r0, normalize dl1 it = Ok r0 ∧
                         keyword r = str_lower_strip (keyword r0)) df f1 →
  Forall2 (λ it r, ∃ r0, normalize dl2 it = Ok r0 ∧
                         keyword r = str_lower_strip (keyword r0)) df f2 →
  keyword <$> f1 = keyword <$> f2.
Proof.
  intros H1. revert f2. induction H1 as [|it r1 df f1 (r0 & Hr0 & Hk1) _ IH];
    intros f2 H2.
  - by apply Forall2_nil_inv_l in H2 as ->.
  - apply Forall2_cons_inv_l in H2 as (r2 & f2' & (r0' & Hr0' & Hk2) & H2 & ->).
    csimpl. f_equal; [|by apply IH].
    apply normalize_Ok in Hr0 as (Hkw & _). apply normalize_Ok in Hr0' as (Hkw' & _).
    rewrite Hk1, Hk2. congruence.
Qed.

Lemma no_competitor_run {rt : Runtime} (get_keywords : string → list item) my_domain :
  content_gap_analysis get_keywords [] my_domain
  = if df_empty (get_keywords my_domain) then Ok None
    else primary_dataset get_keywords my_domain ≫= λ _, Err ValueError.
Proof.
  unfold content_gap_analysis, primary_dataset.
  destruct (df_empty (get_keywords my_domain)); [done|].
  destruct (extract_keyword_info (get_keywords my_domain) [my_domain]) as [f0|e];
    [|done].
  cbn [mbind result_bind].
  destruct (normalize_keywords f0) as [f|e]; [|done].
  cbn [fmap result_fmap mbind result_bind competitor_loop foldlM fst snd].
  unfold matrix_loop, common_count, dict_getitem.
  cbn [foldlM dict_get mbind result_bind]. by rewrite !decide_True.
Qed.

(** X7. Without competitors the analysis never returns a result: it returns
    [None] when the primary frame is empty, and otherwise raises: the
    exception of the extraction or of the normalisation of the keywords
    where the primary dataset is not built, and [ValueError] from the
    concatenation of no common-keyword frame where it is. *)
Theorem no_competitor_no_result {rt : Runtime} (get_keywords : string → list item)
    my_domain :
  content_gap_analysis get_keywords [] my_domain
  = (if df_empty (get_keywords my_domain) then Ok None
     else primary_dataset get_keywords my_domain ≫= λ _, Err ValueError) ∧
  ∀ r, content_gap_analysis get_keywords [] my_domain ≠ Ok (Some r).
Proof.
  split; [apply no_competitor_run|]. intros r. rewrite no_competitor_run.
  destruct (df_empty (get_keywords my_domain)); [done|].
  by destruct (primary_dataset get_keywords my_domain).
Qed.

Section further.
Context {rt : Runtime}.
Variable get_keywords : string → list item.
Variable competitors : list string.
Variable my_domain : string.

Lemma matrix_cells r a b :
  content_gap_analysis get_keywords competitors my_domain = Ok (Some r) →
  is_Some (common_keywords_matrix r !! (a, b)) ↔
  a ∈ my_domain :: competitors ∧ b ∈ my_domain :: competitors.
Proof.
  intros (primary & st & _ & _ & _ & Hm & _)%content_gap_analysis_inv. split.
  - intros Hab.
    destruct (decide (a ∈ my_domain :: competitors)) as [Ha|Ha];
      [destruct (decide (b ∈ my_domain :: competitors)) as [Hb|Hb]; [done|]|].
    + rewrite (matrix_loop_outside _ _ _ Hm) in Hab by auto. by destruct Hab.
    + rewrite (matrix_loop_outside _ _ _ Hm) in Hab by auto. by destruct Hab.
  - intros [Ha Hb]. destruct (matrix_loop_lookup _ _ _ Hm a b Ha Hb) as (n & _ & ->).
    by eexists.
Qed.

(** X8. The matrix of a completed analysis has a cell for a pair of labels
    exactly when both are domain names of the run (the primary domain or a
    competitor). *)
Theorem matrix_cells_iff r a b :
  content_gap_analysis get_keywords competitors my_domain = Ok (Some r) →
  is_Some (common_keywords_matrix r !! (a, b)) ↔
  a ∈ my_domain :: competitors ∧ b ∈ my_domain :: competitors.
Proof. apply matrix_cells. Qed.

(** X9. A cell of the matrix is at most the diagonal cell of its row and at
    most that of its column: two domains share no more keywords than either
    has records. *)
Theorem matrix_bounded_by_diagonal r a b n na nb :
  content_gap_analysis get_keywords competitors my_domain = Ok (Some r) →
  common_keywords_matrix r !! (a, b) = Some n →
  common_keywords_matrix r !! (a, a) = Some na →
  common_keywords_matrix r !! (b, b) = Some nb →
  (n ≤ na)%nat ∧ (n ≤ nb)%nat.
Proof.
  intros Hrun Hab Haa Hbb.
  assert (a ∈ my_domain :: competitors ∧ b ∈ my_domain :: competitors) as [Ha Hb].
  { apply (matrix_cells r); [done|]. by rewrite Hab. }
  destruct (matrix_entry _ _ _ r a b Hrun Ha Hb) as (dsa & dsb & Hdsa & Hdsb & _ & _ & Hm).
  destruct (matrix_entry _ _ _ r a a Hrun Ha Ha) as (dsa' & ? & Hdsa' & _ & _ & _ & Hma).
  destruct (matrix_entry _ _ _ r b b Hrun Hb Hb) as (dsb' & ? & Hdsb' & _ & _ & _ & Hmb).
  rewrite decide_True in Hma by done. rewrite decide_True in Hmb by done.
  assert (dsa' = dsa) as -> by congruence. assert (dsb' = dsb) as -> by congruence.
  rewrite Hab in Hm. rewrite Haa in Hma. rewrite Hbb in Hmb.
  injection Hm as ->. injection Hma as ->. injection Hmb as ->.
  destruct (decide (a = b)) as [->|Hne].
  - assert (dsa = dsb) as -> by congruence. lia.
  - pose proof (size_keyword_set_le dsa). pose proof (size_keyword_set_le dsb).
    assert (size (keyword_set dsa ∩ keyword_set dsb) ≤ size (keyword_set dsa))%nat.
    { apply subseteq_size. by intros k [? _]%elem_of_intersection. }
    assert (size (keyword_set dsa ∩ keyword_set dsb) ≤ size (keyword_set dsb))%nat.
    { apply subseteq_size. by intros k [_ ?]%elem_of_intersection. }
    lia.
Qed.

(** X10. The number of rows of [all_keywords_df] is the sum of the diagonal
    of the matrix, each domain name counted once. *)
Theorem all_keywords_length r :
  content_gap_analysis get_keywords competitors my_domain = Ok (Some r) →
  ∃ diagonal,
    Forall2 (λ d n, common_keywords_matrix r !! (d, d) = Some n)
            (insertion_order (my_domain :: competitors)) diagonal ∧
    length (all_keywords_df r) = sum_list diagonal.
Proof.
  intros Hrun.
  destruct (analysis_concat _ _ _ _ Hrun) as (primary & dss & css & _ & Hdss & -> & _).
  destruct (content_gap_analysis_inv _ _ _ _ Hrun)
    as (primary' & st & Hmy & Hprimary & Hst & Hm & _).
  rewrite (finished_with_data _ _ _ _ _ _ Hmy Hprimary Hst Hm) in Hdss.
  exists (length <$> dss). split; [|apply length_join].
  apply Forall2_fmap_r. apply mapM_Ok in Hdss.
  apply Forall2_same_length_lookup. split; [by eapply Forall2_length|].
  intros i d ds Hd Hds.
  pose proof (Forall2_lookup_lr _ _ _ _ _ _ Hdss Hd Hds) as Hdataset.
  assert (d ∈ my_domain :: competitors) as Hin.
  { apply list_elem_of_lookup_2 in Hd. unfold insertion_order in Hd.
    apply elem_of_foldl_push_key in Hd as [Hd|Hd]; [|done]. by apply elem_of_nil in Hd. }
  destruct (matrix_entry _ _ _ r d d Hrun Hin Hin) as (ds' & ? & Hds' & _ & _ & _ & Hmd).
  rewrite decide_True in Hmd by done. congruence.
Qed.

(** X11. A record is in [common_keywords_df] exactly when it is a record of
    the primary dataset whose keyword is a keyword of some competitor's
    dataset. *)
Theorem common_keywords_membership r :
  content_gap_analysis get_keywords competitors my_domain = Ok (Some r) →
  ∃ primary,
    primary_dataset get_keywords my_domain = Ok primary ∧
    ∀ x, x ∈ common_keywords_df r ↔
         x ∈ primary ∧
         ∃ c cds y, c ∈ competitors ∧
                    competitor_dataset get_keywords competitors c = Ok cds ∧
                    y ∈ cds ∧ keyword x = keyword y.
Proof.
  intros Hrun.
  destruct (analysis_concat _ _ _ _ Hrun) as (primary & dss & css & Hp & _ & _ & Hcss & ->).
  destruct (content_gap_analysis_inv _ _ _ _ Hrun)
    as (primary' & st & Hmy & Hprimary & Hst & Hm & _).
  rewrite (finished_with_data _ _ _ _ _ _ Hmy Hprimary Hst Hm) in Hcss.
  apply mapM_Ok in Hcss.
  exists primary. split; [done|]. intros x. rewrite list_elem_of_join. split.
  - intros (sub & Hx & Hsub). apply list_elem_of_fmap in Hsub as (cds & -> & Hcds).
    apply list_elem_of_lookup in Hcds as [i Hi].
    destruct (Forall2_lookup_r _ _ _ _ _ Hcss Hi) as (c & Hc & Hdataset).
    unfold isin_filter in Hx. apply list_elem_of_filter in Hx as [Hk Hx].
    apply list_elem_of_fmap in Hk as (y & Hy & Hin).
    split; [done|]. exists c, cds, y. split_and!; try done.
    apply list_elem_of_lookup_2 in Hc. unfold insertion_order in Hc.
    apply elem_of_foldl_push_key in Hc as [Hc|Hc]; [|done]. by apply elem_of_nil in Hc.
  - intros (Hx & c & cds & y & Hc & Hcds & Hy & Hk).
    assert (c ∈ insertion_order competitors) as Hc'.
    { unfold insertion_order. apply elem_of_foldl_push_key. by right. }
    apply list_elem_of_lookup in Hc' as [i Hi].
    destruct (Forall2_lookup_l _ _ _ _ _ Hcss Hi) as (cds' & Hcds' & Hdataset).
    assert (cds' = cds) as -> by congruence.
    exists (isin_filter primary cds). split.
    + unfold isin_filter. apply list_elem_of_filter. split; [|done].
      apply list_elem_of_fmap. by exists y.
    + apply list_elem_of_fmap. exists cds. split; [done|].
      by eapply list_elem_of_lookup_2.
Qed.

End further.

Lemma frame_ok_returns (df : list item) (dl : list string) :
  dl ≠ [] →
  frame_ok df = true ↔
  df_empty df = false ∧ returns (extract_keyword_info df dl).
Proof.
  intros Hdl. unfold frame_ok. rewrite !andb_true_iff, negb_true_iff, forallb_forall.
  split.
  - intros [[[Hne Hkd] Hrse] Hwf]. split; [done|].
    apply extract_keyword_info_returns; [done..|]. split_and!; [done..|].
    apply Forall_forall. intros it Hit. apply Hwf. by apply list_elem_of_In.
  - intros [Hne (Hkd & Hrse & Hwf)%extract_keyword_info_returns]; [|done..].
    split_and!; try done. intros it Hit. rewrite Forall_forall in Hwf.
    apply Hwf. by apply list_elem_of_In.
Qed.

Lemma normalized_row_keys {rt : Runtime} (df : list item) (dl : list string) f x :
  extract_keyword_info df dl ≫= normalize_keywords = Ok f → x ∈ f →
  (Position x).*1 = dl ∧ (Traffic x).*1 = dl.
Proof.
  intros (rows & Hrows & Hf)%bind_Ok Hx.
  apply normalize_keywords_Ok in Hf as [_ Hf].
  apply list_elem_of_lookup in Hx as [i Hi].
  destruct (Forall2_lookup_r _ _ _ _ _ Hf Hi) as (r0 & Hr0 & _ & -> & ->).
  eapply extracted_row_keys; [done|]. by eapply list_elem_of_lookup_2.
Qed.

(** The keyword column the extraction returns: the keywords of the items. *)
Lemma extracted_keywords (df : list item) (dl : list string) rows :
  df_empty df = false → extract_keyword_info df dl = Ok rows →
  keyword <$> rows = raw_keyword <$> df.
Proof.
  intros Hne Hrows. apply extract_keyword_info_rows in Hrows; [|done]. clear Hne.
  induction Hrows as [|it r df rows Hr _ IH]; [done|].
  csimpl. by rewrite IH, (normalize_raw_keyword _ _ _ Hr).
Qed.

Lemma dataset_returns {rt : Runtime} (df : list item) (dl : list string) :
  dl ≠ [] →
  dataset_ok df = true ↔
  df_empty df = false ∧ returns (extract_keyword_info df dl ≫= normalize_keywords).
Proof.
  intros Hdl. unfold dataset_ok. rewrite andb_true_iff, (frame_ok_returns df dl Hdl).
  split.
  - intros [[Hne [rows Hrows]] Hacc]. split; [done|]. rewrite Hrows.
    cbn [mbind result_bind]. apply normalize_keywords_returns.
    by rewrite (extracted_keywords _ _ _ Hne Hrows).
  - intros [Hne [f Hf]]. apply bind_Ok in Hf as (rows & Hrows & Hf).
    split; [split; [done|by eexists]|].
    rewrite <-(extracted_keywords _ _ _ Hne Hrows).
    apply normalize_keywords_returns. by eexists.
Qed.

Lemma foldlM_insert_returns `{Countable K} {A} (key : A → K) (val : A → result nat)
    (l : list A) (m0 : gmap K nat) :
  (∀ x, x ∈ l → returns (val x)) →
  returns (foldlM (λ m x, c ← val x; Ok (<[key x := c]> m)) m0 l).
Proof.
  revert m0. induction l as [|a l IH]; intros m0 Hval; simpl; [by eexists|].
  destruct (Hval a) as [n Hn]; [left|]. rewrite Hn. simpl.
  apply IH. intros x Hx. apply Hval. by right.
Qed.

Lemma matrix_loop_returns (all_keywords : dict (list record)) (names : list string) :
  (∀ d, d ∈ names → is_Some (dict_get d all_keywords)) →
  returns (matrix_loop all_keywords names).
Proof.
  intros Hall. unfold matrix_loop.
  rewrite (foldlM_nested
             (λ m p, c ← common_count all_keywords p.1 p.2; Ok (<[(p.1, p.2) := c]> m))).
  apply (foldlM_insert_returns (λ p : string * string, (p.1, p.2))
           (λ p, common_count all_keywords p.1 p.2)).
  intros [a b] Hab. apply list_elem_of_In, in_prod_iff in Hab as [Ha Hb].
  rewrite <-!list_elem_of_In in *.
  destruct (Hall a Ha) as [fa Hfa]. destruct (Hall b Hb) as [fb Hfb].
  unfold common_count, dict_getitem. simpl.
  destruct (decide (a = b)); rewrite ?Hfa, ?Hfb; by eexists.
Qed.

Section further_returns.
Context {rt : Runtime}.
Variable get_keywords : string → list item.
Variable competitors : list string.
Variable my_domain : string.

Lemma competitor_fold_returns my_keywords_df cs st :
  (∀ c, c ∈ cs → df_empty (get_keywords c) = false →
        returns (competitor_dataset get_keywords competitors c)) →
  returns (foldlM (competitor_step get_keywords competitors my_keywords_df) st cs).
Proof.
  revert st. induction cs as [|c cs IH]; intros st Hcs; simpl; [by eexists|].
  assert (returns (competitor_step get_keywords competitors my_keywords_df st c))
    as [st' Hst'].
  { unfold competitor_step. destruct (df_empty (get_keywords c)) eqn:Hc; simpl.
    - by eexists.
    - destruct (Hcs c) as [f Hf]; [left|done|]. unfold competitor_dataset in Hf.
      apply bind_Ok in Hf as (f0 & Hf0 & Hf). rewrite Hf0. simpl. rewrite Hf.
      by eexists. }
  rewrite Hst'. simpl. apply IH. intros c' Hc'. apply Hcs. by right.
Qed.

Lemma analysis_returns :
  competitors ≠ [] →
  (∀ d, d ∈ my_domain :: competitors → dataset_ok (get_keywords d) = true) →
  ∃ r, content_gap_analysis get_keywords competitors my_domain = Ok (Some r).
Proof.
  intros Hcomps Hok.
  assert (∀ d dl, d ∈ my_domain :: competitors → dl ≠ [] →
            df_empty (get_keywords d) = false ∧
            returns (extract_keyword_info (get_keywords d) dl ≫= normalize_keywords))
    as Hret.
  { intros d dl Hd Hdl. by apply dataset_returns, Hok. }
  destruct (Hret my_domain [my_domain]) as [Hmy [f Hf]]; [left|done|].
  apply bind_Ok in Hf as (f0 & Hf0 & Hf).
  unfold content_gap_analysis. rewrite Hmy, Hf0. cbn [mbind result_bind].
  rewrite Hf. cbn [mbind result_bind].
  destruct (competitor_fold_returns f competitors ([(my_domain, f)], []))
    as [st Hst].
  { intros c Hc _. apply Hret; [by right|done]. }
  unfold competitor_loop. rewrite Hst. cbn [mbind result_bind].
  assert (∀ d, d ∈ my_domain :: competitors →
            is_Some (dict_get d st.1) ∧
            (d ∈ competitors → is_Some (dict_get d st.2))) as Hall.
  { intros d Hd. destruct (competitor_fold_get _ _ _ _ _ _ Hst d) as [Hin Hout].
    destruct (decide (d ∈ with_data get_keywords competitors)) as [Hwd|Hnwd].
    - destruct (Hin Hwd) as (fd & _ & -> & ->). split; by eexists.
    - assert (d ∉ competitors) as Hnc.
      { intros Hc. apply Hnwd. unfold with_data. apply list_elem_of_filter.
        split; [|done]. apply (Hret d [d]); [by right|done]. }
      apply elem_of_cons in Hd as [->|Hd]; [|done].
      destruct (Hout Hnwd) as [-> _]. simpl. rewrite decide_True by done.
      split; [by eexists|done]. }
  destruct (matrix_loop_returns st.1 (my_domain :: competitors)) as [m Hm].
  { intros d Hd. by apply Hall. }
  rewrite Hm. cbn [mbind result_bind].
  assert (dict_values st.1 ≠ []) as H1.
  { destruct (Hall my_domain) as [[f1 Hf1] _]; [left|].
    unfold dict_values. destruct st.1; [done|]. done. }
  assert (dict_values st.2 ≠ []) as H2.
  { destruct competitors as [|c cs]; [done|].
    destruct (Hall c) as [_ [f2 Hf2]]; [right; left|left|].
    unfold dict_values. destruct st.2; [done|]. done. }
  unfold concat. destruct (dict_values st.1); [done|].
  destruct (dict_values st.2); [done|]. cbn [mbind result_bind]. by eexists.
Qed.

Lemma analysis_returns_only r :
  content_gap_analysis get_keywords competitors my_domain = Ok (Some r) →
  competitors ≠ [] ∧
  ∀ d, d ∈ my_domain :: competitors → dataset_ok (get_keywords d) = true.
Proof.
  intros Hrun.
  assert (competitors ≠ []) as Hcomps.
  { intros ->.
    destruct (content_gap_analysis_inv _ _ _ _ Hrun)
      as (primary & st & _ & _ & Hst & _ & _ & Hc).
    unfold competitor_loop in Hst. simpl in Hst. by injection Hst as <-. }
  split; [done|]. intros d Hd.
  destruct (matrix_entry _ _ _ r d d Hrun Hd Hd) as (ds & _ & Hds & _ & Hne & _ & _).
  unfold dataset, competitor_dataset, primary_dataset in Hds.
  destruct (decide (d ∈ competitors)).
  - apply (dataset_returns _ competitors); [done|]. split; [done|by eexists].
  - apply elem_of_cons in Hd as [->|Hd]; [|done].
    apply (dataset_returns _ [my_domain]); [done|]. split; [done|by eexists].
Qed.

(** X12. For distinct competitor names, the analysis returns a result
    exactly when there is at least one competitor and the frame of every
    domain, primary and competitors, is not empty, has the columns
    [keyword_data] and [ranked_serp_element], holds only well-formed items,
    and has a keyword column the [.str] accessor accepts.  (A competitor
    given twice makes frames with a repeated column name, which [pd.concat]
    is not modelled on.) *)
Theorem analysis_returns_iff :
  NoDup competitors →
  (∃ r, content_gap_analysis get_keywords competitors my_domain = Ok (Some r)) ↔
  competitors ≠ [] ∧
  ∀ d, d ∈ my_domain :: competitors →
       frame_ok (get_keywords d) = true ∧
       str_accessor (raw_keyword <$> get_keywords d) = true.
Proof.
  intros _. split.
  - intros [r Hr]. destruct (analysis_returns_only r Hr) as [Hc Hok].
    split; [done|]. intros d Hd. by apply andb_true_iff, Hok.
  - intros [Hc Hok]. apply analysis_returns; [done|].
    intros d Hd. by apply andb_true_iff, Hok.
Qed.

(** X13. For a competitor other than the primary domain, the count the
    matrix gives the two is the number of distinct keywords of the
    competitor's common-keyword subset. *)
Theorem shared_count_of_subset r c :
  content_gap_analysis get_keywords competitors my_domain = Ok (Some r) →
  c ∈ competitors → c ≠ my_domain →
  ∃ primary st sub,
    primary_dataset get_keywords my_domain = Ok primary ∧
    competitor_loop get_keywords competitors my_domain primary = Ok st ∧
    dict_get c st.2 = Some sub ∧
    common_keywords_matrix r !! (my_domain, c) = Some (size (keyword_set sub)).
Proof.
  intros Hrun Hc Hne.
  destruct (content_gap_analysis_inv _ _ _ _ Hrun)
    as (primary & st & Hmy & Hprimary & Hst & Hm & _).
  destruct (matrix_entry _ _ _ r my_domain c Hrun) as
    (dsa & dsb & Hdsa & Hdsb & _ & Hec & Hcell); [left|by right|].
  rewrite decide_False in Hcell by done.
  pose proof Hst as Hloop. unfold competitor_loop in Hloop.
  destruct (competitor_fold_get _ _ _ _ _ _ Hloop c) as [Hin _].
  destruct Hin as (cds & Hcds & _ & Hsub).
  { unfold with_data. by apply list_elem_of_filter. }
  exists primary, st, (isin_filter primary cds). split_and!; try done.
  rewrite Hcell. do 2 f_equal. rewrite keyword_set_isin_filter.
  assert (dsb = cds) as ->.
  { unfold dataset in Hdsb. rewrite decide_True in Hdsb by done. congruence. }
  f_equal. unfold keyword_set. f_equal.
  destruct (dataset_rows get_keywords competitors my_domain my_domain dsa)
    as (dl & Hrows); [left|done..|].
  eapply keyword_column_context; [done|]. by apply normalized_rows.
Qed.

(** X14. Every record of [all_keywords_df] carries the normalised keyword
    of an item of one of the domains, and every record of
    [common_keywords_df] the normalised keyword of an item of the primary
    domain that is also the normalised keyword of an item of a
    competitor. *)
Theorem result_keywords_normalised r x :
  content_gap_analysis get_keywords competitors my_domain = Ok (Some r) →
  (x ∈ all_keywords_df r →
   ∃ d it, d ∈ my_domain :: competitors ∧ it ∈ get_keywords d ∧
           keyword x = normalized_keyword it) ∧
  (x ∈ common_keywords_df r →
   ∃ it c itc, it ∈ get_keywords my_domain ∧ keyword x = normalized_keyword it ∧
               c ∈ competitors ∧ itc ∈ get_keywords c ∧
               keyword x = normalized_keyword itc).
Proof.
  intros Hrun.
  destruct (analysis_concat _ _ _ _ Hrun)
    as (primary & dss & css & Hp & Hdss & Hall & Hcss & Hcommon).
  assert (∀ c, c ∈ with_data get_keywords competitors → c ∈ competitors) as Hwd.
  { intros c Hc. unfold with_data in Hc. by apply list_elem_of_filter in Hc as [_ ?]. }
  rewrite Hall, Hcommon. split; intros Hx.
  - apply list_elem_of_join in Hx as (ds & Hx & Hds). apply mapM_Ok in Hdss.
    apply list_elem_of_lookup in Hds as [i Hi].
    destruct (Forall2_lookup_r _ _ _ _ _ Hdss Hi) as (d & Hd & Hds).
    assert (d ∈ my_domain :: competitors) as Hin.
    { apply list_elem_of_lookup_2 in Hd. rewrite insertion_order_cons in Hd.
      apply elem_of_foldl_push_key in Hd as [Hd|Hd].
      - apply list_elem_of_singleton in Hd as ->. left.
      - right. by apply Hwd. }
    pose proof (dataset_keywords _ _ _ r d ds Hrun Hin Hds) as Hk.
    assert (keyword x ∈ keyword <$> ds) as Hkx by (by apply list_elem_of_fmap_2).
    rewrite Hk in Hkx. apply list_elem_of_fmap in Hkx as (it & Hkx & Hit).
    by exists d, it.
  - apply list_elem_of_join in Hx as (sub & Hx & Hsub).
    apply list_elem_of_fmap in Hsub as (cds & -> & Hcds).
    apply mapM_Ok in Hcss. apply list_elem_of_lookup in Hcds as [i Hi].
    destruct (Forall2_lookup_r _ _ _ _ _ Hcss Hi) as (c & Hc & Hds).
    assert (c ∈ competitors) as Hin.
    { apply list_elem_of_lookup_2 in Hc. unfold insertion_order in Hc.
      apply elem_of_foldl_push_key in Hc as [Hc|Hc]; [by apply elem_of_nil in Hc|].
      by apply Hwd. }
    unfold isin_filter in Hx. apply list_elem_of_filter in Hx as [Hkc Hx].
    rewrite (competitor_keywords _ _ _ r c cds Hrun Hin Hds) in Hkc.
    apply list_elem_of_fmap in Hkc as (itc & Hkc & Hitc).
    assert (keyword x ∈ keyword <$> primary) as Hkx by (by apply list_elem_of_fmap_2).
    rewrite (primary_keywords _ _ _ r primary Hrun Hp) in Hkx.
    apply list_elem_of_fmap in Hkx as (it & Hkx & Hit).
    by exists it, c, itc.
Qed.

(** X15. A record of [all_keywords_df] has its position and traffic columns
    either for the primary domain alone (a primary record) or for every
    competitor of the list (a record of any competitor); a record of
    [common_keywords_df] has them for the primary domain alone. *)
Theorem result_domain_columns r x :
  content_gap_analysis get_keywords competitors my_domain = Ok (Some r) →
  (x ∈ all_keywords_df r →
   ((Position x).*1 = [my_domain] ∧ (Traffic x).*1 = [my_domain]) ∨
   ((Position x).*1 = competitors ∧ (Traffic x).*1 = competitors)) ∧
  (x ∈ common_keywords_df r →
   (Position x).*1 = [my_domain] ∧ (Traffic x).*1 = [my_domain]).
Proof.
  intros Hrun.
  destruct (analysis_concat _ _ _ _ Hrun)
    as (primary & dss & css & Hp & Hdss & Hall & Hcss & Hcommon).
  rewrite Hall, Hcommon. split; intros Hx.
  - apply list_elem_of_join in Hx as (ds & Hx & Hds). apply mapM_Ok in Hdss.
    apply list_elem_of_lookup in Hds as [i Hi].
    destruct (Forall2_lookup_r _ _ _ _ _ Hdss Hi) as (d & _ & Hd).
    unfold dataset, competitor_dataset, primary_dataset in Hd.
    destruct (decide (d ∈ competitors)); [right|left]; by eapply normalized_row_keys.
  - apply list_elem_of_join in Hx as (sub & Hx & Hsub).
    apply list_elem_of_fmap in Hsub as (cds & -> & _).
    unfold isin_filter in Hx. apply list_elem_of_filter in Hx as [_ Hx].
    by eapply normalized_row_keys.
Qed.

End further_returns.

(** A column that holds numbers only, or booleans only, holds no string. *)
Lemma not_text_column (col : list pyval) :
  col ≠ [] → forallb is_number col || forallb is_bool col = true →
  forallb is_str col = false.
Proof.
  destruct col as [|x col]; [done|]. intros _. simpl.
  by destruct x; rewrite ?andb_false_l, ?orb_false_l, ?orb_false_r.
Qed.

(** X21. A primary frame the extraction accepts whose keywords are numbers
    only, or booleans only, stops the analysis with [AttributeError]: the
    [.str] accessor refuses the keyword column. *)
Theorem numeric_keywords_raise {rt : Runtime} (get_keywords : string → list item)
    competitors my_domain :
  frame_ok (get_keywords my_domain) = true →
  forallb is_number (raw_keyword <$> get_keywords my_domain)
  || forallb is_bool (raw_keyword <$> get_keywords my_domain) = true →
  content_gap_analysis get_keywords competitors my_domain = Err AttributeError.
Proof.
  intros Hok Hnum.
  destruct (proj1 (frame_ok_returns (get_keywords my_domain) [my_domain]
                     ltac:(done)) Hok) as [Hne [rows Hrows]].
  unfold content_gap_analysis. rewrite Hne, Hrows. cbn [mbind result_bind].
  unfold normalize_keywords. rewrite (extracted_keywords _ _ _ Hne Hrows).
  unfold str_accessor. rewrite Hnum, not_text_column; [done| |done].
  destruct (get_keywords my_domain); [done|done].
Qed.

Lemma numeric_keywords_raise_witness :
  content_gap_analysis scenario_numeric ["rival.example"] "shop.example"
  = Err AttributeError.
Proof.
  apply (numeric_keywords_raise scenario_numeric ["rival.example"] "shop.example").
  - vm_compute. reflexivity.
  - vm_compute. reflexivity.
Defined.

(** ** Instances on the scenario *)

Lemma matrix_cells_iff_witness :
  is_Some (common_keywords_matrix scenario_result !! ("shop.example", "other.example")) ↔
  "shop.example" ∈ "shop.example" :: ["rival.example"] ∧
  "other.example" ∈ "shop.example" :: ["rival.example"].
Proof.
  apply (matrix_cells_iff scenario ["rival.example"] "shop.example").
  vm_compute. reflexivity.
Defined.

Lemma matrix_bounded_by_diagonal_witness :
  common_keywords_matrix scenario_result !! ("shop.example", "rival.example")
  = Some 1 ∧ (1 ≤ 3)%nat ∧ (1 ≤ 2)%nat.
Proof.
  split; [vm_compute; reflexivity|].
  apply (matrix_bounded_by_diagonal scenario ["rival.example"] "shop.example"
           scenario_result "shop.example" "rival.example").
  - vm_compute. reflexivity.
  - vm_compute. reflexivity.
  - vm_compute. reflexivity.
  - vm_compute. reflexivity.
Defined.

Lemma all_keywords_length_witness :
  ∃ diagonal,
    Forall2 (λ d n, common_keywords_matrix scenario_result !! (d, d) = Some n)
            (insertion_order ("shop.example" :: ["rival.example"])) diagonal ∧
    length (all_keywords_df scenario_result) = sum_list diagonal.
Proof.
  apply (all_keywords_length scenario ["rival.example"] "shop.example").
  vm_compute. reflexivity.
Defined.

Lemma common_keywords_membership_witness :
  ∃ primary,
    primary_dataset scenario "shop.example" = Ok primary ∧
    (∀ x, x ∈ common_keywords_df scenario_result ↔
       x ∈ primary ∧
       ∃ c cds y, c ∈ ["rival.example"] ∧
                  competitor_dataset scenario ["rival.example"] c = Ok cds ∧
                  y ∈ cds ∧ keyword x = keyword y).
Proof.
  apply (common_keywords_membership scenario ["rival.example"] "shop.example").
  vm_compute. reflexivity.
Defined.

Lemma shared_count_of_subset_witness :
  ∃ primary st sub,
    primary_dataset scenario "shop.example" = Ok primary ∧
    competitor_loop scenario ["rival.example"] "shop.example" primary = Ok st ∧
    dict_get "rival.example" st.2 = Some sub ∧
    common_keywords_matrix scenario_result !! ("shop.example", "rival.example")
    = Some (size (keyword_set sub)).
Proof.
  apply (shared_count_of_subset scenario ["rival.example"] "shop.example").
  - vm_compute. reflexivity.
  - left.
  - discriminate.
Defined.

Lemma result_keywords_normalised_witness :
  (scenario_record ∈ all_keywords_df scenario_result →
   ∃ d it, d ∈ "shop.example" :: ["rival.example"] ∧ it ∈ scenario d ∧
           keyword scenario_record = normalized_keyword it) ∧
  (scenario_record ∈ common_keywords_df scenario_result →
   ∃ it c itc, it ∈ scenario "shop.example" ∧
               keyword scenario_record = normalized_keyword it ∧
               c ∈ ["rival.example"] ∧ itc ∈ scenario c ∧
               keyword scenario_record = normalized_keyword itc).
Proof.
  apply (result_keywords_normalised scenario ["rival.example"] "shop.example"
           scenario_result scenario_record).
  vm_compute. reflexivity.
Defined.

Lemma analysis_returns_iff_witness :
  (∃ r, content_gap_analysis scenario ["rival.example"] "shop.example" = Ok (Some r)) ↔
  ["rival.example"] ≠ [] ∧
  ∀ d, d ∈ "shop.example" :: ["rival.example"] →
       frame_ok (scenario d) = true ∧
       str_accessor (raw_keyword <$> scenario d) = true.
Proof.
  apply (analysis_returns_iff scenario ["rival.example"] "shop.example").
  apply NoDup_singleton.
Defined.

Lemma result_domain_columns_witness :
  (scenario_record ∈ all_keywords_df scenario_result →
   ((Position scenario_record).*1 = ["shop.example"] ∧
    (Traffic scenario_record).*1 = ["shop.example"]) ∨
   ((Position scenario_record).*1 = ["rival.example"] ∧
    (Traffic scenario_record).*1 = ["rival.example"])) ∧
  (scenario_record ∈ common_keywords_df scenario_result →
   (Position scenario_record).*1 = ["shop.example"] ∧
   (Traffic scenario_record).*1 = ["shop.example"]).
Proof.
  apply (result_domain_columns scenario ["rival.example"] "shop.example"
           scenario_result scenario_record).
  vm_compute. reflexivity.
Defined.

(** ** The competitor loop on its own *)

(** X16. Where the competitor loop finishes, a competitor without data has
    no entry in either dictionary (unless it is the primary domain, which
    keeps its entry in [all_keywords]), a competitor with data has its
    dataset and its common-keyword subset, and the entry of the primary
    domain is still the primary dataset unless the primary domain is itself
    a competitor with data. *)
Theorem competitor_loop_entries {rt : Runtime} (get_keywords : string → list item)
    competitors my_domain primary st :
  competitor_loop get_keywords competitors my_domain primary = Ok st →
  (∀ c, c ∈ competitors → df_empty (get_keywords c) = true → c ≠ my_domain →
        dict_get c st.1 = None ∧ dict_get c st.2 = None) ∧
  (∀ c, c ∈ competitors → df_empty (get_keywords c) = false →
        ∃ cds, competitor_dataset get_keywords competitors c = Ok cds ∧
               dict_get c st.1 = Some cds ∧
               dict_get c st.2 = Some (isin_filter primary cds)) ∧
  (my_domain ∉ with_data get_keywords competitors →
   dict_get my_domain st.1 = Some primary).
Proof.
  intros Hst. split_and!.
  - intros c _ Hc Hne. by eapply competitor_loop_skipped.
  - intros c Hc Hne. unfold competitor_loop in Hst.
    destruct (competitor_fold_get _ _ _ _ _ _ Hst c) as [Hin _].
    apply Hin. unfold with_data. by apply list_elem_of_filter.
  - intros Hmy. unfold competitor_loop in Hst.
    destruct (competitor_fold_get _ _ _ _ _ _ Hst my_domain) as [_ Hout].
    destruct (Hout Hmy) as [-> _]. simpl. by rewrite decide_True.
Qed.

Lemma competitor_loop_entries_witness :
  (∀ c, c ∈ scenario_competitors → df_empty (scenario c) = true →
        c ≠ "shop.example" →
        dict_get c scenario_loop.1 = None ∧ dict_get c scenario_loop.2 = None) ∧
  (∀ c, c ∈ scenario_competitors → df_empty (scenario c) = false →
        ∃ cds, competitor_dataset scenario scenario_competitors c = Ok cds ∧
               dict_get c scenario_loop.1 = Some cds ∧
               dict_get c scenario_loop.2
               = Some (isin_filter (rows_of (primary_dataset scenario "shop.example"))
                                   cds)) ∧
  ("shop.example" ∉ with_data scenario scenario_competitors →
   dict_get "shop.example" scenario_loop.1
   = Some (rows_of (primary_dataset scenario "shop.example"))).
Proof.
  apply (competitor_loop_entries scenario scenario_competitors "shop.example").
  vm_compute. reflexivity.
Defined.

(** ** White space around a keyword *)

Lemma lstrip_all_space (s : string) : all_space s = true → lstrip_ascii s = EmptyString.
Proof.
  induction s as [|c s IH]; simpl; [done|].
  intros [-> Hs]%andb_true_iff. by apply IH.
Qed.

Lemma lstrip_space_app (pre s : string) :
  all_space pre = true → lstrip_ascii (String.append pre s) = lstrip_ascii s.
Proof.
  induction pre as [|c pre IH]; simpl; [done|].
  intros [-> Hpre]%andb_true_iff. by apply IH.
Qed.

Lemma rstrip_all_space (s : string) : all_space s = true → rstrip_ascii s = EmptyString.
Proof.
  induction s as [|c s IH]; simpl; [done|].
  intros [Hc Hs]%andb_true_iff. by rewrite IH, Hc.
Qed.

Lemma rstrip_app_space (s post : string) :
  all_space post = true → rstrip_ascii (String.append s post) = rstrip_ascii s.
Proof.
  intros Hpost. induction s as [|c s IH]; simpl.
  - by apply rstrip_all_space.
  - by rewrite IH.
Qed.

Lemma lstrip_app (s post : string) :
  lstrip_ascii (String.append s post)
  = match lstrip_ascii s with
    | EmptyString => lstrip_ascii post
    | t => String.append t post
    end.
Proof.
  induction s as [|c s IH]; simpl; [done|]. by destruct (isspace c).
Qed.

Lemma lower_all_space (s : string) : all_space (lower_ascii s) = all_space s.
Proof.
  induction s as [|c s IH]; simpl; [done|]. by rewrite isspace_ascii_lower, IH.
Qed.

Lemma lower_app (s t : string) :
  lower_ascii (String.append s t) = String.append (lower_ascii s) (lower_ascii t).
Proof. induction s as [|c s IH]; simpl; [done|]. by rewrite IH. Qed.

Lemma strip_surrounding_space (pre s post : string) :
  all_space pre = true → all_space post = true →
  strip_ascii (String.append pre (String.append s post)) = strip_ascii s.
Proof.
  intros Hpre Hpost. unfold strip_ascii. rewrite lstrip_space_app by done.
  rewrite lstrip_app. destruct (lstrip_ascii s) as [|c t] eqn:Hs.
  - by rewrite lstrip_all_space.
  - by rewrite rstrip_app_space.
Qed.

(** X17. ASCII white space before or after an ASCII keyword does not tell
    two keywords apart: the keyword with white space added on either side is
    normalised to the same cell. *)
Theorem surrounding_space_ignored {rt : Runtime} (pre s post : string) :
  all_space pre = true → all_space post = true → is_ascii s = true →
  str_lower_strip (PStr (String.append pre (String.append s post)))
  = str_lower_strip (PStr s).
Proof.
  intros Hpre Hpost Hs. rewrite !str_lower_strip_ascii; try done.
  - f_equal. rewrite !lower_app.
    apply strip_surrounding_space; by rewrite lower_all_space.
  - rewrite !is_ascii_app, Hs. by rewrite !all_space_is_ascii.
Qed.

Lemma surrounding_space_ignored_witness :
  str_lower_strip (PStr (String.append "  " (String.append "Running Shoes" " ")))
  = str_lower_strip (PStr "Running Shoes").
Proof.
  apply (surrounding_space_ignored "  " "Running Shoes" " "); reflexivity.
Defined.

(** ** The transport *)

Lemma py_get_caught_Some (x : pyval) (k : string) (dflt v : pyval) :
  py_get_caught x k dflt = Some v ↔
  ∃ d, x = PDict d ∧ v = default dflt (dict_get k d).
Proof.
  unfold py_get_caught. destruct x; simpl; split;
    try done; try (by intros (d' & [=] & _)).
  - intros [= <-]. by eexists.
  - by intros (d' & [= <-] & ->).
Qed.

Lemma py_first_get_Some (x : pyval) (k : string) (dflt v : pyval) :
  (y ← py_first x; py_get_caught y k dflt) = Some v ↔
  ∃ d rest, x = PList (PDict d :: rest) ∧ v = default dflt (dict_get k d).
Proof.
  split.
  - destruct x as [| | | | |s|l|]; simpl; try done.
    + destruct s; simpl; done.
    + destruct l as [|y rest]; simpl; [done|].
      intros (d & -> & ->)%py_get_caught_Some. by eexists _, _.
  - intros (d & rest & -> & ->). done.
Qed.

Lemma get_data_from_api_inv (post : option response) (v : pyval) :
  get_data_from_api post = v → v ≠ PList [] →
  ∃ body tasks task results first_result,
    post = Some {| status_code := 200; json := Some (PDict body) |} ∧
    dict_get "tasks" body = Some (PList (PDict task :: tasks)) ∧
    dict_get "result" task = Some (PList (PDict first_result :: results)) ∧
    dict_get "items" first_result = Some v.
Proof.
  unfold get_data_from_api. intros Hv Hne.
  destruct post as [[status body]|]; [|congruence]. simpl in Hv.
  destruct (status =? 200)%Z eqn:Hstatus; [|congruence].
  apply Z.eqb_eq in Hstatus as ->.
  destruct (body ≫= items_of_body) as [v'|] eqn:Hbody; [|simpl in Hv; congruence].
  simpl in Hv. subst v'.
  destruct body as [body|]; [|done]. simpl in Hbody. unfold items_of_body in Hbody.
  destruct (py_get_caught body "tasks" (PList [])) as [tasks|] eqn:Htasks; [|done].
  simpl in Hbody. apply py_get_caught_Some in Htasks as (b & -> & ->).
  destruct (py_first (default (PList []) (dict_get "tasks" b))) as [task|] eqn:Htask;
    [|done].
  simpl in Hbody.
  destruct (py_get_caught task "result" (PList [])) as [results|] eqn:Hres; [|done].
  simpl in Hbody.
  pose proof (proj1 (py_first_get_Some (default (PList []) (dict_get "tasks" b))
                       "result" (PList []) results)) as H1.
  rewrite Htask in H1. simpl in H1. destruct (H1 Hres) as (t & rest & Ht & ->).
  pose proof (proj1 (py_first_get_Some (default (PList []) (dict_get "result" t))
                       "items" (PList []) v) Hbody) as (fr & rest' & Hfr & ->).
  assert (task = PDict t) as ->.
  { rewrite Ht in Htask. simpl in Htask. congruence. }
  exists b, rest, t, rest', fr. split_and!; try done.
  - destruct (dict_get "tasks" b); simpl in Ht; [by subst|done].
  - destruct (dict_get "result" t); simpl in Hfr; [by subst|done].
  - destruct (dict_get "items" fr); simpl in *; [done|]. done.
Qed.

Lemma get_data_from_api_shape (body : dict pyval) tasks task results first_result :
  dict_get "tasks" body = Some (PList (PDict task :: tasks)) →
  dict_get "result" task = Some (PList (PDict first_result :: results)) →
  get_data_from_api (Some {| status_code := 200; json := Some (PDict body) |})
  = default (PList []) (dict_get "items" first_result).
Proof.
  intros Htasks Hresult. unfold get_data_from_api. simpl.
  unfold items_of_body, py_get_caught. simpl. rewrite Htasks. simpl.
  rewrite Hresult. simpl. done.
Qed.

(** X18. An answer other than the empty list is returned exactly for a
    response with status 200 whose body is an object, its [tasks] a list
    that starts with an object, the [result] of that a list that starts with
    an object, and the answer is what this last object holds under [items]
    (a null included).  Every other outcome of the POST gives the empty
    list. *)
Theorem get_data_from_api_answer (post : option response) (v : pyval) :
  v ≠ PList [] →
  get_data_from_api post = v ↔
  ∃ body tasks task results first_result,
    post = Some {| status_code := 200; json := Some (PDict body) |} ∧
    dict_get "tasks" body = Some (PList (PDict task :: tasks)) ∧
    dict_get "result" task = Some (PList (PDict first_result :: results)) ∧
    dict_get "items" first_result = Some v.
Proof.
  intros Hne. split.
  - intros Hv. by apply get_data_from_api_inv.
  - intros (body & tasks & task & results & fr & -> & Htasks & Hresult & Hitems).
    rewrite (get_data_from_api_shape _ _ _ _ _ Htasks Hresult). by rewrite Hitems.
Qed.

Lemma get_data_from_api_answer_witness :
  get_data_from_api (Some (ok_response PNone)) = PNone ↔
  ∃ body tasks task results first_result,
    Some (ok_response PNone)
    = Some {| status_code := 200; json := Some (PDict body) |} ∧
    dict_get "tasks" body = Some (PList (PDict task :: tasks)) ∧
    dict_get "result" task = Some (PList (PDict first_result :: results)) ∧
    dict_get "items" first_result = Some PNone.
Proof.
  apply (get_data_from_api_answer (Some (ok_response PNone)) PNone). discriminate.
Defined.

(** A null under [items] is returned as it is, any failure gives [[]]. *)
Example get_data_from_api_outcomes :
  get_data_from_api (Some (ok_response PNone)) = PNone ∧
  get_data_from_api None = PList [] ∧
  get_data_from_api (Some {| status_code := 429; json := None |}) = PList [] ∧
  get_data_from_api (Some {| status_code := 200; json := None |}) = PList [] ∧
  get_data_from_api
    (Some {| status_code := 200; json := Some (PDict [("tasks", PList [])]) |})
  = PList [].
Proof. split_and!; reflexivity. Qed.

(** ** The fields of a record *)

Lemma object_get_Ok (kd : dict pyval) (k leaf : string) (dflt v : pyval) :
  (o ← py_get (PDict kd) k (PDict []); py_get o leaf dflt) = Ok v →
  v = default dflt (dict_get leaf (object_at k kd)).
Proof.
  unfold object_at. cbn [py_get mbind result_bind].
  destruct (dict_get k kd) as [[]|]; cbn [default from_option id py_get];
    try done; by intros [= <-].
Qed.

Lemma extracted_row (df : list item) (dl : list string) rows i it row :
  extract_keyword_info df dl = Ok rows →
  df !! i = Some it → rows !! i = Some row →
  normalize dl it = Ok row.
Proof.
  intros Hrows Hit Hrow. destruct (df_empty df) eqn:Hne.
  { unfold extract_keyword_info in Hrows. rewrite Hne in Hrows. by injection Hrows as <-. }
  apply extract_keyword_info_rows in Hrows; [|done].
  by apply (Forall2_lookup_lr _ _ _ _ _ _ Hrows Hit Hrow).
Qed.

(** X19. The record of an item whose [keyword_data] is an object holds the
    leaves of the item: the keyword, the search volume, cpc and update time
    of [keyword_info], the difficulty of [keyword_properties], each with its
    default where the leaf or the inner object is absent, and 0 for a null
    cpc. *)
Theorem extracted_fields (df : list item) (dl : list string) rows i it row kd :
  extract_keyword_info df dl = Ok rows →
  df !! i = Some it → rows !! i = Some row →
  dict_get "keyword_data" it = Some (PDict kd) →
  let ki := object_at "keyword_info" kd in
  let kp := object_at "keyword_properties" kd in
  keyword row = default (PStr "N/A") (dict_get "keyword" kd) ∧
  search_volume row = default (PInt 0) (dict_get "search_volume" ki) ∧
  Keyword_Difficulty row = default (PInt 0) (dict_get "keyword_difficulty" kp) ∧
  CPC row = match dict_get "cpc" ki with
            | Some v => if bool_decide (v = PNone) then PInt 0 else v
            | None => PInt 0
            end ∧
  last_updated_time row = default (PStr "N/A") (dict_get "last_updated_time" ki).
Proof.
  intros Hrows Hit Hrow Hkd. cbv zeta.
  pose proof (extracted_row _ _ _ _ _ _ Hrows Hit Hrow) as Hnorm.
  apply normalize_Ok in Hnorm as (Hkw & Hsv & Hdiff & Hcpc & Hlut & _).
  rewrite Hkd in Hkw, Hsv, Hdiff, Hcpc, Hlut.
  cbn [default from_option id] in Hkw, Hsv, Hdiff, Hcpc, Hlut.
  unfold keyword_of in Hkw. unfold search_volume_of in Hsv.
  unfold keyword_difficulty_of in Hdiff. unfold last_updated_time_of in Hlut.
  cbn [isinstance_dict] in Hkw, Hsv, Hdiff, Hlut.
  split_and!.
  - simpl in Hkw. by injection Hkw as <-.
  - by apply object_get_Ok in Hsv.
  - by apply object_get_Ok in Hdiff.
  - unfold cpc_of, object_at in *. cbn [isinstance_dict py_get mbind result_bind] in Hcpc.
    destruct (dict_get "keyword_info" kd) as [[]|];
      cbn [default from_option id py_get mbind result_bind] in Hcpc; try done.
    + destruct (dict_get "cpc" d) as [v|]; cbn [default from_option id] in Hcpc.
      * destruct (bool_decide (v = PNone)); simpl in Hcpc; by injection Hcpc as <-.
      * simpl in Hcpc. by injection Hcpc as <-.
    + simpl in Hcpc. by injection Hcpc as <-.
  - by apply object_get_Ok in Hlut.
Qed.

Lemma extracted_fields_witness :
  ∃ row, extract_keyword_info [item_without_serp; kw_item "trail socks"] []
         = Ok [row; {| keyword := PStr "trail socks"; search_volume := PInt 0;
                       Keyword_Difficulty := PInt 0; CPC := PInt 0;
                       last_updated_time := PStr "N/A";
                       Position := []; Traffic := [] |}] ∧
         keyword row = PStr "running shoes" ∧
         search_volume row = PInt 900 ∧
         Keyword_Difficulty row = PInt 41 ∧
         CPC row = PInt 0 ∧
         last_updated_time row = PStr "2024-05-01".
Proof.
  pose (row0 := {| keyword := PStr "running shoes"; search_volume := PInt 900;
                   Keyword_Difficulty := PInt 41; CPC := PInt 0;
                   last_updated_time := PStr "2024-05-01";
                   Position := []; Traffic := [] |}).
  exists row0. split; [vm_compute; reflexivity|].
  exact (extracted_fields [item_without_serp; kw_item "trail socks"] []
           [row0; {| keyword := PStr "trail socks"; search_volume := PInt 0;
                     Keyword_Difficulty := PInt 0; CPC := PInt 0;
                     last_updated_time := PStr "N/A";
                     Position := []; Traffic := [] |}]
           0 item_without_serp row0
           [("keyword", PStr "running shoes");
            ("keyword_info",
             PDict [("search_volume", PInt 900); ("cpc", PNone);
                    ("last_updated_time", PStr "2024-05-01")]);
            ("keyword_properties", PDict [("keyword_difficulty", PInt 41)])]
           eq_refl eq_refl eq_refl eq_refl).
Defined.

(** X20. The record of an item whose [keyword_data] is absent, null or any
    value but an object has every default: keyword ["N/A"], search volume,
    difficulty and cpc 0, update time ["N/A"], and position 0 for every
    domain of the list. *)
Theorem extracted_defaults (df : list item) (dl : list string) rows i it row :
  extract_keyword_info df dl = Ok rows →
  df !! i = Some it → rows !! i = Some row →
  isinstance_dict (default PNaN (dict_get "keyword_data" it)) = false →
  keyword row = PStr "N/A" ∧ search_volume row = PInt 0 ∧
  Keyword_Difficulty row = PInt 0 ∧ CPC row = PInt 0 ∧
  last_updated_time row = PStr "N/A" ∧
  Position row = (λ d, (d, PInt 0)) <$> dl.
Proof.
  intros Hrows Hit Hrow Hx.
  pose proof (extracted_row _ _ _ _ _ _ Hrows Hit Hrow) as Hnorm.
  destruct (normalize_domains _ _ _ Hnorm) as (HP & _ & Hdom).
  apply normalize_Ok in Hnorm as (Hkw & Hsv & Hdiff & Hcpc & Hlut & _).
  destruct (defaults_not_object _ Hx) as (Hkw' & Hsv' & Hdiff' & Hcpc' & Hlut' & Hpos').
  rewrite Hkw' in Hkw. rewrite Hsv' in Hsv. rewrite Hdiff' in Hdiff.
  rewrite Hcpc' in Hcpc. rewrite Hlut' in Hlut.
  injection Hkw as <-. injection Hsv as <-. injection Hdiff as <-.
  injection Hcpc as <-. injection Hlut as <-. split_and!; try done.
  destruct (decide (dl = [])) as [->|Hdl]; [by rewrite HP|].
  destruct (Hdom Hdl) as [Hpos _]. rewrite Hpos' in Hpos. injection Hpos as Hpos.
  rewrite HP, <-Hpos. done.
Qed.

Lemma extracted_defaults_witness :
  ∃ row, rows_of (extract_keyword_info
                    [kw_item "trail socks"; item_without_keyword_data]
                    ["shop.example"]) !! 1%nat = Some row ∧
         keyword row = PStr "N/A" ∧ search_volume row = PInt 0 ∧
         Keyword_Difficulty row = PInt 0 ∧ CPC row = PInt 0 ∧
         last_updated_time row = PStr "N/A" ∧
         Position row = (λ d, (d, PInt 0)) <$> ["shop.example"].
Proof.
  pose (row1 := {| keyword := PStr "N/A"; search_volume := PInt 0;
                   Keyword_Difficulty := PInt 0; CPC := PInt 0;
                   last_updated_time := PStr "N/A";
                   Position := [("shop.example", PInt 0)];
                   Traffic := [("shop.example", PInt 3)] |}).
  exists row1. split; [vm_compute; reflexivity|].
  apply (extracted_defaults [kw_item "trail socks"; item_without_keyword_data]
           ["shop.example"]
           (rows_of (extract_keyword_info
                       [kw_item "trail socks"; item_without_keyword_data]
                       ["shop.example"]))
           1 item_without_keyword_data row1).
  - vm_compute. reflexivity.
  - reflexivity.
  - vm_compute. reflexivity.
  - reflexivity.
Defined.
